(** * TensorHelper (search_r1/llm_agent/tensor_helper.py)

    A shallow embedding of the padding helpers of the generation loop and
    the properties of them that the specification states.

    Tensors of the source are 2-D [torch.Tensor]s.  They are embedded as
    a list of rows together with the width, so that a batch without rows
    still has a shape [(0, w)].  Integer tensors hold [int64] values:
    every arithmetic operation of the source on tensor values is written
    with its two's-complement wrap-around.  [pad_token_id] is an int64
    token id; a pad value that a caller supplies is a Python number, and
    torch refuses it when it is no int64.  Python exceptions are the
    [Raise] results of a small error monad. *)

From stdpp Require Import gmap strings list fin_maps sorting.
From Stdlib Require Import ZArith Lia.

(** ** Exceptions *)

Inductive exn : Set :=
  | AssertionError
  | IndexError
  | KeyError
  | ValueError
  | RuntimeError.

Inductive outcome (A : Type) : Type :=
  | Ok (a : A)
  | Raise (e : exn).
Arguments Ok {A} a.
Arguments Raise {A} e.

#[global] Instance outcome_ret : MRet outcome := λ A a, Ok a.
#[global] Instance outcome_bind : MBind outcome :=
  λ A B f m, match m with Ok a => f a | Raise e => Raise e end.
#[global] Instance outcome_fmap : FMap outcome :=
  λ A B f m, match m with Ok a => Ok (f a) | Raise e => Raise e end.

Definition raises {A} (m : outcome A) : Prop := ∃ e, m = Raise e.

(** [assert c] of Python. *)
Definition py_assert (c : bool) : outcome unit :=
  if c then Ok tt else Raise AssertionError.

(** ** 64-bit integers *)

Module Int64.
Definition modulus : Z := 2 ^ 64.
Definition half : Z := 2 ^ 63.
Definition max_int : Z := half - 1.
Definition min_int : Z := - half.
Definition wrap (z : Z) : Z := ((z + half) `mod` modulus - half)%Z.
Definition add (a b : Z) : Z := wrap (a + b).
Definition sub (a b : Z) : Z := wrap (a - b).
Definition mul (a b : Z) : Z := wrap (a * b).
Definition neg (a : Z) : Z := wrap (- a).
Definition of_bool (b : bool) : Z := if b then 1%Z else 0%Z.
Definition in_range (z : Z) : Prop := (min_int ≤ z ≤ max_int)%Z.
Definition in_rangeb (z : Z) : bool :=
  ((min_int <=? z) && (z <=? max_int))%Z.
End Int64.

(** ** Tensors and the torch primitives the helper calls *)

Record tensor (A : Type) : Type := Tensor {
  ncols : nat;               (* shape[1] *)
  rows : list (list A)       (* shape[0] = length rows *)
}.
Arguments Tensor {A} ncols rows.
Arguments ncols {A} t.
Arguments rows {A} t.

Definition nrows {A} (t : tensor A) : nat := length (rows t).

(** Every row has the width the shape announces. *)
Definition wf {A} (t : tensor A) : Prop :=
  Forall (λ r, length r = ncols t) (rows t).

Module Torch.

(** Pointwise operations keep the shape. *)
Definition pointwise {A B} (f : A → B) (t : tensor A) : tensor B :=
  Tensor (ncols t) (map (map f) (rows t)).

Definition pointwise2 {A B C} (f : A → B → C)
    (t : tensor A) (u : tensor B) : tensor C :=
  Tensor (ncols t) (zip_with (zip_with f) (rows t) (rows u)).

(** [torch.full((n, m), v)] and the 1-D [torch.full((m,), v)], for a
    fill value [v] of the dtype. *)
Definition full {A} (n m : nat) (v : A) : tensor A :=
  Tensor m (replicate n (replicate m v)).
Definition full1 {A} (m : nat) (v : A) : list A := replicate m v.

(** The fill value a caller hands to [torch.full(..., dtype=torch.int64)]
    is a Python number: torch converts it to the dtype, and raises a
    RuntimeError for a number that is no int64, whatever the size asked
    for (also for size 0). *)
Definition fill_value (v : Z) : outcome Z :=
  if Int64.in_rangeb v then Ok v else Raise RuntimeError.

(** [t.sum(dim=1)] of an int64 tensor. *)
Definition sum_row (r : list Z) : Z := foldl Int64.add 0%Z r.
Definition sum_dim1 (t : tensor Z) : list Z := map sum_row (rows t).

(** [v.max()] of a 1-D tensor; no maximum of an empty tensor. *)
Definition max (v : list Z) : outcome Z :=
  match v with
  | [] => Raise RuntimeError
  | x :: v' => Ok (foldl Z.max x v')
  end.

(** [bool_tensor.sum()] of a 1-D boolean tensor. *)
Definition sum_bool (m : list bool) : Z :=
  foldl Int64.add 0%Z (map Int64.of_bool m).

(** [torch.cumsum(t, dim=1)]. *)
Fixpoint cumsum_from (acc : Z) (r : list Z) : list Z :=
  match r with
  | [] => []
  | x :: r' => Int64.add acc x :: cumsum_from (Int64.add acc x) r'
  end.
Definition cumsum_row (r : list Z) : list Z := cumsum_from 0%Z r.
Definition cumsum_dim1 (t : tensor Z) : tensor Z :=
  Tensor (ncols t) (map cumsum_row (rows t)).

(** Python's normalisation of one bound of a slice over a dimension of
    size [n]: a negative bound counts from the end, and the outcome is
    clamped to [0 .. n]. *)
Definition slice_bound (i : Z) (n : nat) : nat :=
  Z.to_nat (if (i <? 0)%Z then Z.max 0 (i + Z.of_nat n)
            else Z.min i (Z.of_nat n)).

(** [t[:, start:]] and [t[:, :stop]]. *)
Definition slice_from {A} (start : Z) (t : tensor A) : tensor A :=
  let s := slice_bound start (ncols t) in
  Tensor (ncols t - s) (map (drop s) (rows t)).
Definition slice_to {A} (stop : Z) (t : tensor A) : tensor A :=
  let e := slice_bound stop (ncols t) in
  Tensor e (map (take e) (rows t)).

(** [keys.argsort(stable=True)] of one row: the indices of the row
    ordered by ascending key, equal keys in their original order.
    Insertion from the right, each new entry stopping in front of the
    first entry whose key is not smaller. *)
Fixpoint insert_key (p : Z * nat) (l : list (Z * nat)) : list (Z * nat) :=
  match l with
  | [] => [p]
  | q :: l' =>
      if (q.1 <? p.1)%Z then q :: insert_key p l' else p :: q :: l'
  end.
Definition sort_keys (l : list (Z * nat)) : list (Z * nat) :=
  foldr insert_key [] l.
Definition argsort_row (keys : list Z) : list nat :=
  (sort_keys (zip keys (seq 0 (length keys)))).*2.
Definition argsort_dim1 (t : tensor Z) : tensor nat :=
  Tensor (ncols t) (map argsort_row (rows t)).

(** [t.gather(1, index)]: cell (i, j) of the outcome is
    [t[i][index[i][j]]]; an index outside the row is an error, and so
    is an index tensor with more rows than [t]. *)
Fixpoint gather_row {A} (r : list A) (index : list nat) : outcome (list A) :=
  match index with
  | [] => Ok []
  | j :: index' =>
      match r !! j with
      | Some x => xs ← gather_row r index'; Ok (x :: xs)
      | None => Raise RuntimeError
      end
  end.
Fixpoint gather_rows {A} (rs : list (list A)) (index : list (list nat))
    : outcome (list (list A)) :=
  match index, rs with
  | [], _ => Ok []
  | ix :: index', r :: rs' =>
      o ← gather_row r ix; os ← gather_rows rs' index'; Ok (o :: os)
  | _ :: _, [] => Raise RuntimeError
  end.
Definition gather1 {A} (t : tensor A) (index : tensor nat)
    : outcome (tensor A) :=
  os ← gather_rows (rows t) (rows index); Ok (Tensor (ncols index) os).

(** [torch.cat(ts, dim=1)]: the list is not empty and all tensors have
    the same number of rows.  Tensors whose row counts differ raise a
    RuntimeError.  The empty list raises too, with a class that depends
    on the release of torch: RuntimeError in torch 2.4.0, which [cat1]
    follows, ValueError in later releases.  The theorems below use of the
    empty list only that it raises, never the class. *)
Fixpoint cat_rows {A} (t : tensor A) (ts : list (tensor A))
    : list (list A) :=
  match ts with
  | [] => rows t
  | u :: ts' => zip_with app (rows t) (cat_rows u ts')
  end.
Definition cat1 {A} (ts : list (tensor A)) : outcome (tensor A) :=
  match ts with
  | [] => Raise RuntimeError
  | t :: ts' =>
      if forallb (λ u, Nat.eqb (nrows u) (nrows t)) ts'
      then Ok (Tensor (sum_list (map ncols ts)) (cat_rows t ts'))
      else Raise RuntimeError
  end.

(** [dst[mask] = src] with a 1-D boolean mask over the rows: the rows
    of [src] go, in order, to the rows of [dst] where the mask holds
    ([place]).  The mask has one entry per row of [dst], and [src] has
    the width of [dst] and as many rows as the mask has true entries.
    (torch would also accept a single row and repeat it; both call sites
    assert the row count first, so that case does not arise.) *)
Fixpoint place {B} (dst : list B) (mask : list bool) (src : list B)
    : list B :=
  match dst, mask with
  | d :: dst', true :: mask' =>
      match src with
      | s :: src' => s :: place dst' mask' src'
      | [] => d :: place dst' mask' []
      end
  | d :: dst', false :: mask' => d :: place dst' mask' src
  | _, _ => dst
  end.
Definition masked_assign {A} (dst : tensor A) (mask : list bool)
    (src : tensor A) : outcome (tensor A) :=
  if negb (Nat.eqb (length mask) (nrows dst)) then Raise IndexError
  else if negb (Nat.eqb (length (filter (λ b, b = true) mask)) (nrows src))
  then Raise RuntimeError
  else if negb (Nat.eqb (ncols src) (ncols dst)) then Raise RuntimeError
  else Ok (Tensor (ncols dst) (place (rows dst) mask (rows src))).

(** [torch.stack(vs, dim=0)] of 1-D tensors: not empty, equal sizes. *)
Definition stack {A} (vs : list (list A)) : outcome (tensor A) :=
  match vs with
  | [] => Raise RuntimeError
  | v :: vs' =>
      if forallb (λ u, Nat.eqb (length u) (length v)) vs'
      then Ok (Tensor (length v) vs)
      else Raise RuntimeError
  end.

End Torch.

(** ** Python built-ins *)

(** [d[key]] on a dict. *)
Definition dict_get {V} (d : gmap string V) (key : string) : outcome V :=
  match d !! key with
  | Some v => Ok v
  | None => Raise KeyError
  end.

(** [l[i]] on a list, for an index that is not negative. *)
Definition list_get {V} (l : list V) (i : nat) : outcome V :=
  match l !! i with
  | Some v => Ok v
  | None => Raise IndexError
  end.

(** [max(l)] on a list of ints. *)
Definition py_max (l : list nat) : outcome nat :=
  match l with
  | [] => Raise ValueError
  | x :: l' => Ok (foldl Nat.max x l')
  end.

(** ** The configuration and the helper *)

Record TensorConfig : Set := {
  pad_token_id : Z;
  max_prompt_length : Z;
  max_obs_length : Z;
  max_start_length : Z
}.

(** A configuration for the worked examples. *)
Definition example_config : TensorConfig := {|
  pad_token_id := 151643;
  max_prompt_length := 4096;
  max_obs_length := 500;
  max_start_length := 2048
|}.

Section TensorHelper.

Variable config : TensorConfig.

(** The loop of [cut_to_effective_len] over [keys]; [result] is the
    copy of the dict that the loop updates. *)
Fixpoint cut_loop (tensor_dict : gmap string (tensor Z))
    (effective_len : Z) (cut_left : bool) (keys : list string)
    (result : gmap string (tensor Z))
    : outcome (gmap string (tensor Z)) :=
  match keys with
  | [] => Ok result
  | key :: keys' =>
      t ← dict_get tensor_dict key;
      cut_loop tensor_dict effective_len cut_left keys'
        (<[key := if cut_left
                  then Torch.slice_from (Int64.neg effective_len) t
                  else Torch.slice_to effective_len t]> result)
  end.

Definition cut_to_effective_len (tensor_dict : gmap string (tensor Z))
    (keys : list string) (cut_left : bool)
    : outcome (gmap string (tensor Z)) :=
  attention_mask ← dict_get tensor_dict "attention_mask";
  effective_len ← Torch.max (Torch.sum_dim1 attention_mask);
  cut_loop tensor_dict effective_len cut_left keys tensor_dict.

(** [tensor != pad_token_id] and [tensor == pad_token_id]. *)
Definition ne_pad (x : Z) : bool := negb (x =? pad_token_id config)%Z.
Definition eq_pad (x : Z) : bool := (x =? pad_token_id config)%Z.

Definition convert_pad_structure (t : tensor Z) (pad_to_left : bool)
    : outcome (tensor Z * tensor nat) :=
  let mask := if pad_to_left then Torch.pointwise ne_pad t
              else Torch.pointwise eq_pad t in
  let sorted_indices :=
    Torch.argsort_dim1 (Torch.pointwise Int64.of_bool mask) in
  g ← Torch.gather1 t sorted_indices;
  Ok (g, sorted_indices).

Definition create_attention_mask (input_ids : tensor Z) : tensor Z :=
  Torch.pointwise (λ x, if ne_pad x then 1%Z else 0%Z) input_ids.

Definition create_position_ids (attention_mask : tensor Z) : tensor Z :=
  Torch.pointwise2 Int64.mul
    (Torch.pointwise (λ c, Int64.sub c 1) (Torch.cumsum_dim1 attention_mask))
    attention_mask.

Definition concatenate_with_padding (tensors : list (tensor Z))
    (pad_to_left : bool) : outcome (tensor Z) :=
  concatenated ← Torch.cat1 tensors;
  p ← convert_pad_structure concatenated pad_to_left;
  Ok p.1.

(** The loop of [_example_level_pad] over [enumerate(active_mask)];
    [i] is the position in the mask, [s] the next string to use. *)
Fixpoint str_loop (responses_str : list string) (active_mask : list bool)
    (i s : nat) (padded_responses_str : list string)
    : outcome (list string) :=
  match active_mask with
  | [] => Ok padded_responses_str
  | is_active :: rest =>
      if is_active then
        r ← list_get responses_str s;
        str_loop responses_str rest (S i) (S s)
          (<[i := r]> padded_responses_str)
      else str_loop responses_str rest (S i) s padded_responses_str
  end.

Definition _example_level_pad (responses : tensor Z)
    (responses_str : list string) (active_mask : list bool)
    : outcome (tensor Z * list string) :=
  _ ← py_assert (Torch.sum_bool active_mask =? Z.of_nat (nrows responses))%Z;
  let batch_size := length active_mask in
  let seq_len := ncols responses in
  let padded_responses :=
    Torch.full batch_size seq_len (pad_token_id config) in
  padded_responses ← Torch.masked_assign padded_responses active_mask responses;
  let padded_responses_str := replicate batch_size ""%string in
  padded_responses_str ←
    str_loop responses_str active_mask 0 0 padded_responses_str;
  Ok (padded_responses, padded_responses_str).

Definition _example_level_pad_tensor {A} (x : tensor A)
    (active_mask : list bool) (pad_value : A) : outcome (tensor A) :=
  _ ← py_assert (Torch.sum_bool active_mask =? Z.of_nat (nrows x))%Z;
  let batch_size := length active_mask in
  let seq_len := ncols x in
  let padded_x := Torch.full batch_size seq_len pad_value in
  Torch.masked_assign padded_x active_mask x.

(** [tensor_list] holds 1-D int64 tensors; [max_length - tensor.size(0)]
    is never negative, [max_length] being the largest size.  Every row is
    built with [torch.full], which converts the pad value to the dtype of
    the sequences: once [max] has accepted the list (so there is a first
    sequence), a [pad_value] that is no int64 makes the first call raise.
    [pad_token_id] is an int64 token id here as in the other methods,
    which compare it with the cells and write it into them. *)
Definition pad_and_stack (tensor_list : list (list Z)) (pad_to_left : bool)
    (pad_value : option Z) : outcome (tensor Z) :=
  max_length ← py_max (map length tensor_list);
  pad_value ←
    match pad_value with
    | None => Ok (pad_token_id config)
    | Some v => Torch.fill_value v
    end;
  let padded_tensors :=
    if pad_to_left
    then map (λ t, Torch.full1 (max_length - length t) pad_value ++ t)
             tensor_list
    else map (λ t, t ++ Torch.full1 (max_length - length t) pad_value)
             tensor_list in
  Torch.stack padded_tensors.

End TensorHelper.

(** ** Vocabulary of the specification *)

Section Vocabulary.

Variable pad : Z.

(** The real (non-pad) tokens of a row, in their order, and the two
    counts. *)
Definition real_tokens (row : list Z) : list Z :=
  filter (λ x, x ≠ pad) row.
Definition count_real (row : list Z) : nat := length (real_tokens row).
Definition count_pad (row : list Z) : nat :=
  length (filter (λ x, x = pad) row).

(** The row with its pad tokens moved to one side. *)
Definition repadded (pad_to_left : bool) (row : list Z) : list Z :=
  if pad_to_left
  then replicate (count_pad row) pad ++ real_tokens row
  else real_tokens row ++ replicate (count_pad row) pad.

(** Position ids as the specification words them: a real token gets
    its zero-based rank among the real tokens of the row, counted from
    [k] at the left end, and a pad token gets 0. *)
Fixpoint rank_ids_from (k : nat) (row : list Z) : list Z :=
  match row with
  | [] => []
  | x :: row' =>
      if decide (x = pad) then 0%Z :: rank_ids_from k row'
      else Z.of_nat k :: rank_ids_from (S k) row'
  end.

(** A row whose pad tokens are all on the given side. *)
Definition padded_on (left : bool) (row : list Z) : Prop :=
  row = repadded left row.

End Vocabulary.

(** The number of true entries of an active mask. *)
Definition count_true (mask : list bool) : nat :=
  length (filter (λ b, b = true) mask).


(** Sizes of torch tensors are [int64] values. *)
Definition size_ok (n : nat) : Prop := (Z.of_nat n ≤ Int64.max_int)%Z.

(** * Properties *)

(** ** The error monad and 64-bit arithmetic *)

Lemma bind_Ok {A B} (m : outcome A) (f : A → outcome B) (b : B) :
  m ≫= f = Ok b ↔ ∃ a, m = Ok a ∧ f a = Ok b.
Proof.
  destruct m as [a|e]; simpl; split.
  - intros H. by exists a.
  - by intros (a' & [= <-] & H).
  - discriminate.
  - by intros (a' & [=] & _).
Qed.

Ltac int64_consts :=
  unfold size_ok, Int64.in_range in *;
  unfold Int64.max_int, Int64.min_int, Int64.half, Int64.modulus in *;
  change (2 ^ 63)%Z with 9223372036854775808%Z in *;
  change (2 ^ 64)%Z with 18446744073709551616%Z in *.

Lemma wrap_in_range (z : Z) : Int64.in_range z → Int64.wrap z = z.
Proof.
  intros Hz. unfold Int64.wrap. int64_consts.
  rewrite Z.mod_small; lia.
Qed.

Lemma wrap_range (z : Z) : Int64.in_range (Int64.wrap z).
Proof.
  unfold Int64.wrap. int64_consts.
  pose proof (Z.mod_pos_bound (z + 9223372036854775808)
                18446744073709551616 ltac:(lia)). lia.
Qed.

(** ** Lists *)

Section Lists.

Context {A : Type} (P : A → Prop) `{!∀ x, Decision (P x)}.

Lemma filter_all (l : list A) : Forall P l → filter P l = l.
Proof.
  induction 1 as [|x l Hx _ IH]; [done|].
  by rewrite filter_cons_True, IH.
Qed.

Lemma filter_none (l : list A) : Forall (λ x, ¬ P x) l → filter P l = [].
Proof.
  induction 1 as [|x l Hx _ IH]; [done|].
  by rewrite filter_cons_False.
Qed.

End Lists.

(** ** The stable argsort *)

Section Argsort.

Local Abbreviation key_le := (λ p q : Z * nat, (p.1 ≤ q.1)%Z).

Lemma insert_key_perm (p : Z * nat) (l : list (Z * nat)) :
  Torch.insert_key p l ≡ₚ p :: l.
Proof.
  induction l as [|q l IH]; [done|]. simpl.
  case_match; [|done]. rewrite IH. apply perm_swap.
Qed.

Lemma sort_keys_perm (l : list (Z * nat)) : Torch.sort_keys l ≡ₚ l.
Proof.
  induction l as [|p l IH]; [done|]. simpl.
  by rewrite insert_key_perm, IH.
Qed.

Lemma insert_key_sorted (p : Z * nat) (l : list (Z * nat)) :
  StronglySorted key_le l → StronglySorted key_le (Torch.insert_key p l).
Proof.
  induction 1 as [|q l Hl IH Hq]; simpl.
  - repeat constructor.
  - destruct (Z.ltb_spec q.1 p.1) as [Hlt|Hge].
    + constructor; [done|].
      rewrite insert_key_perm. constructor; [lia | done].
    + constructor; [by constructor|].
      constructor; [done|].
      eapply Forall_impl; [exact Hq|]. simpl. lia.
Qed.

Lemma sort_keys_sorted (l : list (Z * nat)) :
  StronglySorted key_le (Torch.sort_keys l).
Proof.
  induction l as [|p l IH]; simpl; [constructor|].
  by apply insert_key_sorted.
Qed.

(** Stability: entries of equal key keep their order. *)
Lemma insert_key_stable (k : Z) (p : Z * nat) (l : list (Z * nat)) :
  filter (λ q, q.1 = k) (Torch.insert_key p l)
  = filter (λ q, q.1 = k) (p :: l).
Proof.
  induction l as [|q l IH]; [done|]. simpl.
  destruct (Z.ltb_spec q.1 p.1) as [Hlt|Hge]; [|done].
  rewrite (filter_cons _ q), IH, !filter_cons.
  repeat case_decide; try done; lia.
Qed.

Lemma sort_keys_stable (k : Z) (l : list (Z * nat)) :
  filter (λ q, q.1 = k) (Torch.sort_keys l) = filter (λ q, q.1 = k) l.
Proof.
  induction l as [|p l IH]; [done|]. simpl.
  by rewrite insert_key_stable, !filter_cons, IH.
Qed.

(** A sorted list with keys 0 and 1 only is its 0-entries followed by
    its 1-entries. *)
Lemma sorted_binary_split (l : list (Z * nat)) :
  StronglySorted key_le l →
  Forall (λ q, q.1 = 0 ∨ q.1 = 1)%Z l →
  l = filter (λ q, q.1 = 0%Z) l ++ filter (λ q, q.1 = 1%Z) l.
Proof.
  induction 1 as [|q l Hl IH Hq]; intros Hbin; [done|].
  apply Forall_cons in Hbin as [Hq01 Hbin].
  rewrite !filter_cons. destruct Hq01 as [Hq0|Hq1].
  - rewrite decide_True, decide_False by lia. simpl. f_equal. by apply IH.
  - rewrite decide_False, decide_True by lia.
    assert (Hones : Forall (λ q, q.1 = 1%Z) l).
    { rewrite Forall_forall in Hbin, Hq |- *. intros r Hr.
      specialize (Hbin r Hr). specialize (Hq r Hr). simpl in Hq. lia. }
    rewrite filter_none, filter_all; [done..|].
    eapply Forall_impl; [exact Hones|]. simpl. lia.
Qed.

Lemma sort_keys_binary (l : list (Z * nat)) :
  Forall (λ q, q.1 = 0 ∨ q.1 = 1)%Z l →
  Torch.sort_keys l
  = filter (λ q, q.1 = 0%Z) l ++ filter (λ q, q.1 = 1%Z) l.
Proof.
  intros Hbin.
  rewrite <- (sort_keys_stable 0 l), <- (sort_keys_stable 1 l).
  apply sorted_binary_split; [apply sort_keys_sorted|].
  by rewrite sort_keys_perm.
Qed.

Lemma argsort_row_perm (keys : list Z) :
  Torch.argsort_row keys ≡ₚ seq 0 (length keys).
Proof.
  unfold Torch.argsort_row. rewrite sort_keys_perm.
  rewrite snd_zip; [done|]. by rewrite length_seq.
Qed.

Lemma argsort_row_length (keys : list Z) :
  length (Torch.argsort_row keys) = length keys.
Proof. by rewrite argsort_row_perm, length_seq. Qed.

End Argsort.

(** ** Gathering along the sorted indices *)

Section Gather.

Context {A : Type}.

Lemma gather_row_app (r : list A) (ix1 ix2 : list nat) (o1 o2 : list A) :
  Torch.gather_row r ix1 = Ok o1 →
  Torch.gather_row r ix2 = Ok o2 →
  Torch.gather_row r (ix1 ++ ix2) = Ok (o1 ++ o2).
Proof.
  revert o1. induction ix1 as [|j ix1 IH]; intros o1 H1 H2; simpl in *.
  - by injection H1 as <-.
  - destruct (r !! j) as [x|]; [|done].
    apply bind_Ok in H1 as (xs & Hxs & [= <-]).
    by rewrite (IH xs Hxs H2).
Qed.

(** The gather relates every index to the cell it reads. *)
Lemma gather_row_Forall2 (r : list A) (ix : list nat) (o : list A) :
  Torch.gather_row r ix = Ok o ↔ Forall2 (λ j x, r !! j = Some x) ix o.
Proof.
  revert o. induction ix as [|j ix IH]; intros o; simpl.
  - split; [by intros [= <-]; constructor | by inversion 1].
  - split.
    + destruct (r !! j) as [x|] eqn:Hj; [|done].
      intros (xs & Hxs & [= <-])%bind_Ok. constructor; [done|].
      by apply IH.
    + inversion 1 as [|? x ? xs Hj Hxs]; subst. rewrite Hj.
      apply IH in Hxs. by rewrite Hxs.
Qed.

(** Gathering the positions of the entries with a given key, in their
    order, reads exactly the entries with that key. *)
Lemma gather_row_filter_key (kf : A → Z) (k : Z) (row : list A) :
  ∀ pre : list A,
    Torch.gather_row (pre ++ row)
      (filter (λ q, q.1 = k)
         (zip (map kf row) (seq (length pre) (length row)))).*2
    = Ok (filter (λ x, kf x = k) row).
Proof.
  induction row as [|x row IH]; intros pre; [done|].
  simpl. rewrite !filter_cons. simpl.
  specialize (IH (pre ++ [x])).
  rewrite <- app_assoc, length_app, Nat.add_1_r in IH. simpl in IH.
  case_decide; simpl; [|done].
  rewrite lookup_app_r, Nat.sub_diag by done. simpl.
  apply bind_Ok. eexists. split; [exact IH | done].
Qed.

Lemma gather_rows_map (f : list A → list nat) (g : list A → list A)
    (rs : list (list A)) :
  (∀ r, Torch.gather_row r (f r) = Ok (g r)) →
  Torch.gather_rows rs (map f rs) = Ok (map g rs).
Proof.
  intros Hfg. induction rs as [|r rs IH]; [done|].
  simpl. by rewrite Hfg, IH.
Qed.

End Gather.

(** ** Attention mask and position ids *)

Section MaskPosition.

Variable config : TensorConfig.
Local Abbreviation pad := (pad_token_id config).

(** One row of the mask and one row of the position ids, as the two
    functions compute them. *)
Lemma create_attention_mask_rows (t : tensor Z) :
  create_attention_mask config t =
    Tensor (ncols t)
      (map (map (λ x, if decide (x = pad) then 0 else 1)%Z) (rows t)).
Proof.
  unfold create_attention_mask, Torch.pointwise. f_equal.
  apply map_ext. intros row. apply map_ext. intros x.
  unfold ne_pad. destruct (Z.eqb_spec x pad); case_decide; done.
Qed.

Lemma create_position_ids_rows (m : tensor Z) :
  create_position_ids m =
    Tensor (ncols m)
      (map (λ r, zip_with Int64.mul
                   (map (λ c, Int64.sub c 1) (Torch.cumsum_row r)) r)
         (rows m)).
Proof.
  unfold create_position_ids, Torch.pointwise2, Torch.pointwise,
    Torch.cumsum_dim1. simpl. f_equal.
  induction (rows m) as [|r rs IH]; [done|]. simpl. by rewrite IH.
Qed.

(** On the mask of a row the wrap-around arithmetic is exact: the
    computed ids are the ranks. *)
Lemma position_row_rank_ids (row : list Z) :
  ∀ k : nat,
    size_ok (k + length row) →
    zip_with Int64.mul
      (map (λ c, Int64.sub c 1)
         (Torch.cumsum_from (Z.of_nat k)
            (map (λ x, if decide (x = pad) then 0 else 1)%Z row)))
      (map (λ x, if decide (x = pad) then 0 else 1)%Z row)
    = rank_ids_from pad k row.
Proof.
  induction row as [|y row IH]; intros k Hk; [done|].
  simpl in *. unfold Int64.add at 1 2, Int64.sub at 1, Int64.mul at 1.
  destruct (decide (y = pad)) as [Hy|Hy].
  - rewrite Z.mul_0_r, Z.add_0_r.
    rewrite (wrap_in_range 0) by (int64_consts; lia).
    rewrite (wrap_in_range (Z.of_nat k)) by (int64_consts; lia).
    f_equal. apply IH. int64_consts; lia.
  - rewrite (wrap_in_range (Z.of_nat k + 1)) by (int64_consts; lia).
    rewrite (wrap_in_range (Z.of_nat k + 1 - 1)) by (int64_consts; lia).
    rewrite wrap_in_range by (int64_consts; lia).
    f_equal; [lia|].
    replace (Z.of_nat k + 1)%Z with (Z.of_nat (S k)) by lia.
    apply IH. int64_consts; lia.
Qed.

Lemma rank_ids_from_length (row : list Z) :
  ∀ k, length (rank_ids_from pad k row) = length row.
Proof.
  induction row as [|y row IH]; intros k; [done|].
  simpl. case_decide; simpl; by rewrite IH.
Qed.

Lemma rank_ids_from_lookup (row : list Z) :
  ∀ (k j : nat) (x : Z),
    row !! j = Some x →
    rank_ids_from pad k row !! j =
      Some (if decide (x = pad) then 0%Z
            else Z.of_nat (k + count_real pad (take j row))).
Proof.
  unfold count_real, real_tokens.
  induction row as [|y row IH]; intros k j x Hj; [done|].
  destruct j as [|j]; simpl in Hj.
  - injection Hj as ->. simpl. case_decide; simpl; [done|].
    do 2 f_equal. lia.
  - simpl. destruct (decide (y = pad)) as [Hy|Hy]; simpl.
    + rewrite filter_cons_False by (intros H; by apply H). by apply IH.
    + rewrite filter_cons_True by done. rewrite (IH (S k) j x Hj).
      case_decide; [done|]. simpl. do 2 f_equal. lia.
Qed.

(** Read at the real tokens only, the ids are [k, k+1, ...]. *)
Lemma rank_ids_from_real (row : list Z) :
  ∀ k,
    (filter (λ p, p.1 ≠ pad) (zip row (rank_ids_from pad k row))).*2
    = Z.of_nat <$> seq k (count_real pad row).
Proof.
  unfold count_real, real_tokens.
  induction row as [|y row IH]; intros k; [done|].
  simpl. destruct (decide (y = pad)) as [Hy|Hy]; simpl.
  - rewrite !filter_cons_False by (simpl; intros H; by apply H).
    apply IH.
  - rewrite !filter_cons_True by done. simpl. by rewrite IH.
Qed.

Lemma rank_ids_from_nonneg (row : list Z) :
  ∀ k, Forall (λ v, 0 ≤ v)%Z (rank_ids_from pad k row).
Proof.
  induction row as [|y row IH]; intros k; [constructor|].
  simpl. case_decide; constructor; try lia; apply IH.
Qed.

(** C4. The attention mask is 1 exactly where the token differs from
    the pad token and 0 elsewhere.  The position ids of that mask give
    each real token its zero-based rank among the real tokens of its
    row, from the left, so that the real tokens of a row with k of them
    read 0 .. k-1; every pad cell gets 0 and no id is negative.  Nothing
    in this depends on the side of the padding. *)
Theorem mask_and_position_ids (B : tensor Z) :
  wf B → size_ok (ncols B) →
  (ncols (create_attention_mask config B) = ncols B ∧
   nrows (create_attention_mask config B) = nrows B ∧
   ncols (create_position_ids (create_attention_mask config B)) = ncols B ∧
   nrows (create_position_ids (create_attention_mask config B)) = nrows B) ∧
  ∀ (i : nat) (row : list Z),
    rows B !! i = Some row →
    ∃ mrow prow : list Z,
      rows (create_attention_mask config B) !! i = Some mrow ∧
      rows (create_position_ids (create_attention_mask config B)) !! i
        = Some prow ∧
      length mrow = length row ∧ length prow = length row ∧
      (∀ (j : nat) (x : Z),
         row !! j = Some x →
         mrow !! j = Some (if decide (x = pad) then 0 else 1)%Z ∧
         prow !! j =
           Some (if decide (x = pad) then 0%Z
                 else Z.of_nat (count_real pad (take j row)))) ∧
      (filter (λ p, p.1 ≠ pad) (zip row prow)).*2
        = Z.of_nat <$> seq 0 (count_real pad row) ∧
      Forall (λ v, 0 ≤ v)%Z prow.
Proof.
  intros Hwf Hsize.
  rewrite create_position_ids_rows, create_attention_mask_rows. simpl.
  split.
  { unfold nrows. simpl. by rewrite !length_map. }
  intros i row Hi.
  assert (Hlen : length row = ncols B).
  { unfold wf in Hwf. rewrite Forall_lookup in Hwf. by apply (Hwf i). }
  exists (map (λ x, if decide (x = pad) then 0 else 1)%Z row),
    (rank_ids_from pad 0 row).
  split; [by rewrite list_lookup_fmap, Hi|].
  split.
  { rewrite !list_lookup_fmap, Hi. simpl. f_equal.
    apply (position_row_rank_ids row 0). simpl. by rewrite Hlen. }
  split; [by rewrite length_map|].
  split; [by apply rank_ids_from_length|].
  split.
  { intros j x Hj. split.
    - by rewrite list_lookup_fmap, Hj.
    - by rewrite (rank_ids_from_lookup row 0 j x Hj). }
  split; [apply rank_ids_from_real | apply rank_ids_from_nonneg].
Qed.

End MaskPosition.

(** ** Pad-side conversion *)

Section PadSide.

Variable config : TensorConfig.
Local Abbreviation pad := (pad_token_id config).

Lemma filter_pad_replicate (row : list Z) :
  filter (λ x, x = pad) row = replicate (count_pad pad row) pad.
Proof.
  unfold count_pad. symmetry. apply replicate_as_Forall. split; [done|].
  apply Forall_forall. by intros x [Hx _]%list_elem_of_filter.
Qed.

Lemma real_tokens_app (l1 l2 : list Z) :
  real_tokens pad (l1 ++ l2) = real_tokens pad l1 ++ real_tokens pad l2.
Proof. apply filter_app. Qed.

Lemma real_tokens_replicate (n : nat) :
  real_tokens pad (replicate n pad) = [].
Proof.
  apply filter_none, Forall_forall.
  intros x [-> _]%elem_of_replicate H. by apply H.
Qed.

Lemma real_tokens_idemp (row : list Z) :
  real_tokens pad (real_tokens pad row) = real_tokens pad row.
Proof.
  apply filter_all, Forall_forall. by intros x [Hx _]%list_elem_of_filter.
Qed.

Lemma count_pad_app (l1 l2 : list Z) :
  count_pad pad (l1 ++ l2) = count_pad pad l1 + count_pad pad l2.
Proof. unfold count_pad. by rewrite filter_app, length_app. Qed.

Lemma count_pad_replicate (n : nat) : count_pad pad (replicate n pad) = n.
Proof.
  unfold count_pad. rewrite filter_all, length_replicate; [done|].
  apply Forall_forall. by intros x [-> _]%elem_of_replicate.
Qed.

Lemma count_pad_real_tokens (row : list Z) :
  count_pad pad (real_tokens pad row) = 0.
Proof.
  unfold count_pad. rewrite filter_none; [done|].
  apply Forall_forall. by intros x [Hx _]%list_elem_of_filter.
Qed.

Lemma count_pad_real_length (row : list Z) :
  count_pad pad row + count_real pad row = length row.
Proof.
  unfold count_pad, count_real, real_tokens.
  rewrite <- length_app. by rewrite filter_app_complement.
Qed.

(** What re-padding keeps: the real tokens in their order, the number
    of pad tokens, hence the length and the contents. *)
Lemma real_tokens_repadded (side : bool) (row : list Z) :
  real_tokens pad (repadded pad side row) = real_tokens pad row.
Proof.
  unfold repadded. destruct side;
    rewrite real_tokens_app, real_tokens_replicate, real_tokens_idemp;
    [done | by rewrite app_nil_r].
Qed.

Lemma count_pad_repadded (side : bool) (row : list Z) :
  count_pad pad (repadded pad side row) = count_pad pad row.
Proof.
  unfold repadded. destruct side;
    rewrite count_pad_app, count_pad_replicate, count_pad_real_tokens; lia.
Qed.

Lemma repadded_perm (side : bool) (row : list Z) :
  repadded pad side row ≡ₚ row.
Proof.
  unfold repadded, real_tokens. rewrite <- filter_pad_replicate.
  destruct side; [|rewrite (comm app)]; apply filter_app_complement.
Qed.

Lemma repadded_length (side : bool) (row : list Z) :
  length (repadded pad side row) = length row.
Proof. by rewrite repadded_perm. Qed.

Lemma repadded_repadded (side side' : bool) (row : list Z) :
  repadded pad side (repadded pad side' row) = repadded pad side row.
Proof.
  unfold repadded at 1.
  by rewrite real_tokens_repadded, count_pad_repadded.
Qed.

Lemma padded_on_repadded (side : bool) (row : list Z) :
  padded_on pad side (repadded pad side row).
Proof. unfold padded_on. by rewrite repadded_repadded. Qed.

(** One row of the conversion: the stable argsort of the 0/1 keys,
    followed by the gather, re-pads the row. *)
Lemma convert_row (pad_to_left : bool) (row : list Z) :
  Torch.gather_row row
    (Torch.argsort_row
       (map Int64.of_bool
          (map (if pad_to_left then ne_pad config else eq_pad config) row)))
  = Ok (repadded pad pad_to_left row).
Proof.
  unfold Torch.argsort_row. rewrite map_map, length_map.
  rewrite sort_keys_binary.
  2:{ apply Forall_forall. intros [k j] Hq. simpl.
      apply elem_of_zip_l, list_elem_of_fmap in Hq as (x & -> & _).
      unfold Int64.of_bool. case_match; auto. }
  rewrite fmap_app.
  pose proof (gather_row_filter_key
    (λ x, Int64.of_bool
            ((if pad_to_left then ne_pad config else eq_pad config) x))) as G.
  erewrite gather_row_app; [| apply (G 0%Z row []) | apply (G 1%Z row [])].
  f_equal. unfold repadded, real_tokens. rewrite <- filter_pad_replicate.
  destruct pad_to_left; f_equal; apply list_filter_iff; intros x;
    unfold ne_pad, eq_pad, Int64.of_bool;
    destruct (Z.eqb_spec x pad); simpl; split; (done || lia || auto).
Qed.

Lemma convert_pad_structure_eq (t : tensor Z) (pad_to_left : bool) :
  convert_pad_structure config t pad_to_left
  = Ok (Tensor (ncols t) (map (repadded pad pad_to_left) (rows t)),
        Tensor (ncols t)
          (map (λ row,
                  Torch.argsort_row
                    (map Int64.of_bool
                       (map (if pad_to_left then ne_pad config
                             else eq_pad config) row)))
             (rows t))).
Proof.
  unfold convert_pad_structure, Torch.gather1.
  assert (Hix :
    Torch.argsort_dim1
      (Torch.pointwise Int64.of_bool
         (if pad_to_left then Torch.pointwise (ne_pad config) t
          else Torch.pointwise (eq_pad config) t))
    = Tensor (ncols t)
        (map (λ row,
                Torch.argsort_row
                  (map Int64.of_bool
                     (map (if pad_to_left then ne_pad config
                           else eq_pad config) row)))
           (rows t))).
  { unfold Torch.argsort_dim1, Torch.pointwise.
    destruct pad_to_left; simpl; by rewrite !map_map. }
  rewrite Hix. simpl.
  rewrite (gather_rows_map _ (repadded pad pad_to_left)); [done|].
  intros r. apply convert_row.
Qed.

(** C2. The conversion never fails.  Every output row has all its
    pad tokens on the requested side, followed (or preceded) by the real
    tokens of the input row in their input order; the returned indices
    are a permutation of the columns and the output is the input
    gathered along them, so each output row is a permutation of its
    input row. *)
Theorem convert_pad_structure_stable_permutation
    (t : tensor Z) (pad_to_left : bool) :
  ∃ (out : tensor Z) (sorted_indices : tensor nat),
    convert_pad_structure config t pad_to_left = Ok (out, sorted_indices) ∧
    Torch.gather1 t sorted_indices = Ok out ∧
    ncols out = ncols t ∧ nrows out = nrows t ∧
    ncols sorted_indices = ncols t ∧ nrows sorted_indices = nrows t ∧
    ∀ (i : nat) (row : list Z),
      rows t !! i = Some row →
      ∃ (orow : list Z) (irow : list nat),
        rows out !! i = Some orow ∧
        rows sorted_indices !! i = Some irow ∧
        orow = (if pad_to_left
                then replicate (count_pad pad row) pad ++ real_tokens pad row
                else real_tokens pad row ++ replicate (count_pad pad row) pad) ∧
        padded_on pad pad_to_left orow ∧
        real_tokens pad orow = real_tokens pad row ∧
        Forall2 (λ j x, row !! j = Some x) irow orow ∧
        irow ≡ₚ seq 0 (length row) ∧
        orow ≡ₚ row.
Proof.
  eexists _, _. split; [apply convert_pad_structure_eq|].
  split.
  { unfold Torch.gather1. simpl.
    rewrite (gather_rows_map _ (repadded pad pad_to_left)); [done|].
    intros r. apply convert_row. }
  unfold nrows. simpl. rewrite !length_map.
  do 4 (split; [done|]).
  intros i row Hi. eexists _, _.
  split; [by rewrite list_lookup_fmap, Hi|].
  split; [by rewrite list_lookup_fmap, Hi|].
  split; [done|].
  split; [apply padded_on_repadded|].
  split; [apply real_tokens_repadded|].
  split; [apply gather_row_Forall2, convert_row|].
  split; [|apply repadded_perm].
  by rewrite argsort_row_perm, !length_map.
Qed.

(** C3. Converting to left padding, then to right padding, then to
    left padding again never fails and keeps, in every row, the real
    tokens in their order and the contents as a whole (nothing dropped,
    nothing duplicated); the outcome is the left-padded form of the
    input, so a left-padded input comes back unchanged. *)
Theorem pad_side_round_trip (t : tensor Z) :
  ∃ (t1 t2 t3 : tensor Z) (i1 i2 i3 : tensor nat),
    convert_pad_structure config t true = Ok (t1, i1) ∧
    convert_pad_structure config t1 false = Ok (t2, i2) ∧
    convert_pad_structure config t2 true = Ok (t3, i3) ∧
    ncols t3 = ncols t ∧ nrows t3 = nrows t ∧
    ∀ (i : nat) (row : list Z),
      rows t !! i = Some row →
      ∃ row3 : list Z,
        rows t3 !! i = Some row3 ∧
        real_tokens pad row3 = real_tokens pad row ∧
        row3 ≡ₚ row ∧
        length row3 = length row ∧
        row3 = replicate (count_pad pad row) pad ++ real_tokens pad row ∧
        (padded_on pad true row → row3 = row).
Proof.
  eexists _, _, _, _, _, _.
  split; [apply convert_pad_structure_eq|].
  split; [apply convert_pad_structure_eq|].
  split; [apply convert_pad_structure_eq|].
  unfold nrows. simpl. rewrite !length_map.
  do 2 (split; [done|]).
  intros i row Hi. exists (repadded pad true row).
  split.
  { rewrite !list_lookup_fmap, Hi. unfold fmap, option_fmap, option_map.
    by rewrite !repadded_repadded. }
  split; [apply real_tokens_repadded|].
  split; [apply repadded_perm|].
  split; [apply repadded_length|].
  split; [reflexivity|].
  intros Hleft. symmetry. exact Hleft.
Qed.

End PadSide.

(** ** Concatenation *)

Section Concatenate.

Variable config : TensorConfig.
Local Abbreviation pad := (pad_token_id config).

(** Row [i] of the concatenation is the concatenation of the rows [i]
    of the fragments. *)
Lemma cat_rows_lookup {A} (ts : list (tensor A)) :
  ∀ (t : tensor A) (i : nat) (frags : list (list A)),
    Forall2 (λ u r, rows u !! i = Some r) (t :: ts) frags →
    Torch.cat_rows t ts !! i = Some (concat frags).
Proof.
  induction ts as [|u ts IH]; intros t i frags Hfr.
  - inversion Hfr as [|? r ? rs Hr Hrs]; subst.
    inversion Hrs; subst. simpl. by rewrite app_nil_r.
  - inversion Hfr as [|? r ? rs Hr Hrs]; subst. simpl.
    rewrite lookup_zip_with, Hr. simpl. by rewrite (IH u i rs Hrs).
Qed.

Lemma cat_rows_length {A} (ts : list (tensor A)) :
  ∀ t : tensor A,
    Forall (λ u, nrows u = nrows t) ts →
    length (Torch.cat_rows t ts) = nrows t.
Proof.
  induction ts as [|u ts IH]; intros t Hn; [done|].
  apply Forall_cons in Hn as [Hu Hn]. simpl.
  rewrite length_zip_with, IH; [unfold nrows in *; lia|].
  eapply Forall_impl; [exact Hn|]. simpl. intros v Hv. by rewrite Hv, Hu.
Qed.

Lemma aligned_fragments {A} (n i : nat) (ts : list (tensor A)) :
  Forall (λ u, nrows u = n) ts → i < n →
  ∃ frags, Forall2 (λ u r, rows u !! i = Some r) ts frags.
Proof.
  intros Hn Hi. induction Hn as [|u ts Hu _ [frags IH]].
  - exists []. constructor.
  - destruct (lookup_lt_is_Some_2 (rows u) i) as [r Hr].
    { unfold nrows in Hu. lia. }
    exists (r :: frags). by constructor.
Qed.

Lemma fragments_length {A} (i : nat) (ts : list (tensor A))
    (frags : list (list A)) :
  Forall wf ts →
  Forall2 (λ u r, rows u !! i = Some r) ts frags →
  length (concat frags) = sum_list (ncols <$> ts).
Proof.
  intros Hwf Hfr. induction Hfr as [|u r ts rs Hr _ IH]; [done|].
  apply Forall_cons in Hwf as [Hu Hwf]. simpl.
  rewrite length_app, IH by done. f_equal.
  unfold wf in Hu. rewrite Forall_lookup in Hu. by apply (Hu i).
Qed.

Lemma cat1_aligned {A} (t : tensor A) (ts : list (tensor A)) (n : nat) :
  Forall (λ u, nrows u = n) (t :: ts) →
  Torch.cat1 (t :: ts)
  = Ok (Tensor (sum_list (ncols <$> t :: ts)) (Torch.cat_rows t ts)).
Proof.
  intros [Ht Hn]%Forall_cons. unfold Torch.cat1.
  assert (forallb (λ u, nrows u =? nrows t) ts = true) as ->; [|done].
  induction Hn as [|u ts Hu _ IH]; [done|]. simpl.
  rewrite IH, andb_true_r. apply Nat.eqb_eq. by rewrite Hu, Ht.
Qed.

(** C6. For fragments with the same number of rows, the concatenation
    followed by the re-padding never fails; its width is the sum of the
    widths of the fragments, and every row holds all its pad tokens on
    the chosen side (the leftmost columns with [pad_to_left]) and, on
    the other side, the real tokens of the fragments' rows in their
    left-to-right order across the fragments. *)
Theorem concatenate_with_padding_spec
    (tensors : list (tensor Z)) (pad_to_left : bool) (n : nat) :
  tensors ≠ [] →
  Forall (λ u, nrows u = n) tensors →
  Forall wf tensors →
  ∃ out : tensor Z,
    concatenate_with_padding config tensors pad_to_left = Ok out ∧
    ncols out = sum_list (ncols <$> tensors) ∧
    nrows out = n ∧
    wf out ∧
    ∀ i : nat,
      i < n →
      ∃ (frags : list (list Z)) (orow : list Z),
        Forall2 (λ u r, rows u !! i = Some r) tensors frags ∧
        rows out !! i = Some orow ∧
        orow =
          (if pad_to_left
           then replicate (count_pad pad (concat frags)) pad
                  ++ real_tokens pad (concat frags)
           else real_tokens pad (concat frags)
                  ++ replicate (count_pad pad (concat frags)) pad).
Proof.
  intros Hne Hn Hwf. destruct tensors as [|t ts]; [done|].
  pose proof Hn as [Ht Hts]%Forall_cons.
  assert (Hlen : length (Torch.cat_rows t ts) = n).
  { rewrite cat_rows_length; [done|].
    eapply Forall_impl; [exact Hts|]. simpl. intros u Hu. by rewrite Hu. }
  assert (Hrows : ∀ i, i < n →
    ∃ frags, Forall2 (λ u r, rows u !! i = Some r) (t :: ts) frags ∧
      Torch.cat_rows t ts !! i = Some (concat frags) ∧
      length (concat frags) = sum_list (ncols <$> t :: ts)).
  { intros i Hi. destruct (aligned_fragments n i (t :: ts) Hn Hi) as [frags Hfr].
    exists frags. split; [done|]. split; [by apply cat_rows_lookup|].
    by apply (fragments_length i). }
  unfold concatenate_with_padding.
  rewrite (cat1_aligned t ts n Hn). simpl.
  rewrite convert_pad_structure_eq. simpl.
  eexists. split; [done|]. simpl.
  split; [done|].
  split; [unfold nrows; simpl; by rewrite length_map|].
  split.
  { unfold wf. simpl. apply Forall_forall.
    intros orow (row & -> & Hrow)%list_elem_of_fmap.
    apply list_elem_of_lookup in Hrow as [i Hi].
    destruct (Hrows i) as (frags & _ & Hcat & Hl).
    { rewrite <- Hlen. by eapply lookup_lt_Some. }
    rewrite repadded_length. by rewrite Hcat in Hi; injection Hi as <-. }
  intros i Hi. destruct (Hrows i Hi) as (frags & Hfr & Hcat & _).
  exists frags. eexists. split; [done|].
  split; [by rewrite list_lookup_fmap, Hcat|]. done.
Qed.

End Concatenate.

(** ** Scattering the active examples *)

Section Scatter.

Lemma count_true_cons (b : bool) (mask : list bool) :
  count_true (b :: mask) = (if b then 1 else 0) + count_true mask.
Proof. unfold count_true. rewrite filter_cons. by destruct b. Qed.

Lemma count_true_le (mask : list bool) : count_true mask ≤ length mask.
Proof. apply length_filter. Qed.

(** The sum of a boolean mask does not wrap around. *)
Lemma sum_bool_from (mask : list bool) :
  ∀ k : nat,
    size_ok (k + length mask) →
    foldl Int64.add (Z.of_nat k) (map Int64.of_bool mask)
    = Z.of_nat (k + count_true mask).
Proof.
  induction mask as [|b mask IH]; intros k Hk; simpl in *.
  - f_equal. unfold count_true. simpl. lia.
  - pose proof (count_true_le mask).
    rewrite count_true_cons. unfold Int64.add at 2.
    rewrite wrap_in_range by (destruct b; int64_consts; simpl; lia).
    destruct b; simpl.
    + replace (Z.of_nat k + 1)%Z with (Z.of_nat (S k)) by lia.
      rewrite IH by (int64_consts; lia). f_equal. lia.
    + rewrite Z.add_0_r. apply IH. int64_consts; lia.
Qed.

Lemma sum_bool_count (mask : list bool) :
  size_ok (length mask) → Torch.sum_bool mask = Z.of_nat (count_true mask).
Proof. intros H. by apply (sum_bool_from mask 0). Qed.

Lemma assert_count (mask : list bool) (n : nat) :
  size_ok (length mask) →
  py_assert (Torch.sum_bool mask =? Z.of_nat n)%Z
  = if decide (count_true mask = n) then Ok tt else Raise AssertionError.
Proof.
  intros H. rewrite sum_bool_count by done. unfold py_assert.
  destruct (Z.eqb_spec (Z.of_nat (count_true mask)) (Z.of_nat n));
    case_decide; (done || lia).
Qed.

Context {B : Type}.





End Scatter.

Section ExamplePad.

Variable config : TensorConfig.
Local Abbreviation pad := (pad_token_id config).

(** The loop over the mask writes, into the block of [padded] that
    starts at [i], the strings from [s] on along the mask. *)
Lemma str_loop_place (responses_str : list string) (mask : list bool) :
  ∀ (i s : nat) (padded : list string),
    i + length mask ≤ length padded →
    s + count_true mask ≤ length responses_str →
    str_loop responses_str mask i s padded
    = Ok (take i padded
            ++ Torch.place (take (length mask) (drop i padded)) mask
                 (drop s responses_str)
            ++ drop (i + length mask) padded).
Proof.
  induction mask as [|b mask IH]; intros i s padded Hi Hs; simpl in *.
  - rewrite Nat.add_0_r. simpl. by rewrite take_drop.
  - rewrite count_true_cons in Hs.
    destruct (lookup_lt_is_Some_2 padded i) as [d Hd]; [lia|].
    rewrite (drop_S _ _ _ Hd). simpl.
    replace (i + S (length mask)) with (S i + length mask) by lia.
    destruct b.
    + destruct (lookup_lt_is_Some_2 responses_str s) as [r Hr]; [lia|].
      unfold list_get. rewrite Hr. simpl.
      rewrite (drop_S _ _ _ Hr).
      rewrite IH by (rewrite ?length_insert; lia).
      rewrite !drop_insert_lt by lia.
      rewrite (take_S_r (<[i:=r]> padded) i r)
        by (apply list_lookup_insert_eq; lia).
      rewrite take_insert_ge by lia.
      by rewrite <- app_assoc.
    + rewrite IH by lia.
      rewrite (take_S_r _ _ _ Hd). by rewrite <- app_assoc.
Qed.

(** With too few strings the loop stops at the first active position
    that has none. *)
Lemma str_loop_short (responses_str : list string) (mask : list bool) :
  ∀ (i s : nat) (padded : list string),
    s ≤ length responses_str →
    length responses_str < s + count_true mask →
    str_loop responses_str mask i s padded = Raise IndexError.
Proof.
  induction mask as [|b mask IH]; intros i s padded Hs Hlt; simpl.
  - unfold count_true in Hlt. simpl in Hlt. lia.
  - rewrite count_true_cons in Hlt. destruct b; [|apply IH; simpl in *; lia].
    unfold list_get. destruct (responses_str !! s) as [r|] eqn:Hr; simpl.
    + apply lookup_lt_Some in Hr. apply IH; lia.
    + done.
Qed.

(** The two variants, step by step: the assertion, then the placement
    (which cannot fail after the assertion), then, for the variant with
    strings, the loop. *)
Lemma example_level_pad_tensor_eq {A} (x : tensor A) (active_mask : list bool)
    (pad_value : A) :
  size_ok (length active_mask) →
  _example_level_pad_tensor x active_mask pad_value
  = if decide (count_true active_mask = nrows x)
    then Ok (Tensor (ncols x)
               (Torch.place
                  (replicate (length active_mask)
                     (replicate (ncols x) pad_value))
                  active_mask (rows x)))
    else Raise AssertionError.
Proof.
  intros Hsize. unfold _example_level_pad_tensor.
  rewrite assert_count by done. case_decide as Hc; [|done]. simpl.
  unfold Torch.masked_assign, Torch.full, nrows in *. simpl.
  rewrite length_replicate, Nat.eqb_refl. simpl.
  fold (count_true active_mask).
  by rewrite (proj2 (Nat.eqb_eq _ _) Hc), Nat.eqb_refl.
Qed.

Lemma example_level_pad_eq (responses : tensor Z)
    (responses_str : list string) (active_mask : list bool) :
  size_ok (length active_mask) →
  _example_level_pad config responses responses_str active_mask
  = if decide (count_true active_mask = nrows responses)
    then
      if decide (count_true active_mask ≤ length responses_str)
      then Ok (Tensor (ncols responses)
                 (Torch.place
                    (replicate (length active_mask)
                       (replicate (ncols responses) pad))
                    active_mask (rows responses)),
               Torch.place (replicate (length active_mask) ""%string)
                 active_mask responses_str)
      else Raise IndexError
    else Raise AssertionError.
Proof.
  intros Hsize. unfold _example_level_pad.
  rewrite assert_count by done. case_decide as Hc; [|done]. simpl.
  unfold Torch.masked_assign, Torch.full, nrows in *. simpl.
  rewrite length_replicate, Nat.eqb_refl. simpl.
  fold (count_true active_mask).
  rewrite (proj2 (Nat.eqb_eq _ _) Hc), Nat.eqb_refl. simpl.
  case_decide as Hs.
  - rewrite str_loop_place by (rewrite ?length_replicate; simpl; lia).
    rewrite !drop_0, Nat.add_0_l, drop_replicate, Nat.sub_diag.
    simpl. rewrite take_replicate, Nat.min_id. by rewrite app_nil_r.
  - rewrite str_loop_short; [done | lia | simpl; lia].
Qed.



End ExamplePad.

(** ** Stacking ragged sequences *)

Section PadAndStack.

Variable config : TensorConfig.
Local Abbreviation pad := (pad_token_id config).

Lemma foldl_max (l : list nat) :
  ∀ a : nat, foldl Nat.max a l = Nat.max a (max_list l).
Proof.
  induction l as [|x l IH]; intros a; simpl; [lia|].
  rewrite IH. lia.
Qed.

Lemma py_max_Ok (l : list nat) : l ≠ [] → py_max l = Ok (max_list l).
Proof.
  destruct l as [|x l]; [done|]. intros _. simpl. by rewrite foldl_max.
Qed.

Lemma stack_Ok {A} (vs : list (list A)) (m : nat) :
  vs ≠ [] → Forall (λ v, length v = m) vs →
  Torch.stack vs = Ok (Tensor m vs).
Proof.
  destruct vs as [|v vs]; [done|]. intros _ [Hv Hvs]%Forall_cons.
  unfold Torch.stack.
  assert (forallb (λ u, length u =? length v) vs = true) as ->.
  { induction Hvs as [|u vs Hu _ IH]; [done|]. simpl.
    rewrite IH, andb_true_r. apply Nat.eqb_eq. by rewrite Hu, Hv. }
  by rewrite Hv.
Qed.

Lemma in_rangeb_spec (v : Z) :
  Int64.in_rangeb v = true ↔ Int64.in_range v.
Proof.
  unfold Int64.in_rangeb, Int64.in_range.
  rewrite andb_true_iff, !Z.leb_le. done.
Qed.

Lemma fill_value_Ok (v : Z) :
  Int64.in_range v → Torch.fill_value v = Ok v.
Proof.
  intros Hv. unfold Torch.fill_value.
  by rewrite (proj2 (in_rangeb_spec v) Hv).
Qed.

Lemma fill_value_Raise (v : Z) :
  ¬ Int64.in_range v → Torch.fill_value v = Raise RuntimeError.
Proof.
  intros Hv. unfold Torch.fill_value.
  destruct (Int64.in_rangeb v) eqn:Hb; [|done].
  by apply in_rangeb_spec in Hb.
Qed.

(** What the helper computes on a list that is not empty, with a pad
    value that is an int64 when one is given. *)
Lemma pad_and_stack_eq (tensor_list : list (list Z)) (pad_to_left : bool)
    (pad_value : option Z) :
  tensor_list ≠ [] →
  (∀ v, pad_value = Some v → Int64.in_range v) →
  pad_and_stack config tensor_list pad_to_left pad_value
  = Ok (Tensor (max_list (map length tensor_list))
          (map (λ t,
                  if pad_to_left
                  then replicate (max_list (map length tensor_list) - length t)
                         (default pad pad_value) ++ t
                  else t ++ replicate
                              (max_list (map length tensor_list) - length t)
                              (default pad pad_value))
             tensor_list)).
Proof.
  intros Hne Hpad. unfold pad_and_stack.
  rewrite py_max_Ok by (by destruct tensor_list).
  assert (match pad_value with
          | None => Ok pad
          | Some v => Torch.fill_value v
          end = Ok (default pad pad_value)) as ->.
  { destruct pad_value as [v|]; [|done]. simpl. apply fill_value_Ok. eauto. }
  simpl. unfold Torch.full1.
  set (m := max_list (map length tensor_list)).
  assert (Hle : Forall (λ t, length t ≤ m) tensor_list).
  { apply Forall_forall. intros t Ht.
    apply max_list_elem_of_le.
    change (length t ∈ length <$> tensor_list).
    apply list_elem_of_fmap. eauto. }
  destruct pad_to_left, pad_value as [v|]; simpl;
    (rewrite (stack_Ok _ m);
     [done
     | by destruct tensor_list
     | apply Forall_fmap; eapply Forall_impl; [exact Hle|]; simpl;
       intros t Ht; rewrite length_app, length_replicate; lia]).
Qed.

(** With a given pad value that is no int64, the helper raises on every
    list that is not empty: [torch.full] refuses the value for the first
    sequence. *)
Lemma pad_and_stack_refused (tensor_list : list (list Z)) (pad_to_left : bool)
    (v : Z) :
  tensor_list ≠ [] → ¬ Int64.in_range v →
  pad_and_stack config tensor_list pad_to_left (Some v) = Raise RuntimeError.
Proof.
  intros Hne Hv. unfold pad_and_stack.
  rewrite py_max_Ok by (by destruct tensor_list).
  simpl. by rewrite fill_value_Raise.
Qed.

(** C9. On a list that is not empty, and with a pad value that is an
    int64 (the dtype of the sequences), the helper returns a tensor with
    one row per sequence, in the order of the list, whose width is the
    largest length; row [i] is sequence [i] unchanged, with the missing
    cells filled with the pad value, on the left with [pad_to_left] and
    on the right otherwise.  The pad value is [pad_token_id] when none
    is given.  No sequence is longer than the width, so none is cut. *)
Theorem pad_and_stack_spec (tensor_list : list (list Z)) (pad_to_left : bool)
    (pad_value : option Z) :
  tensor_list ≠ [] →
  Int64.in_range (match pad_value with Some v => v | None => pad end) →
  ∃ out : tensor Z,
    pad_and_stack config tensor_list pad_to_left pad_value = Ok out ∧
    nrows out = length tensor_list ∧
    wf out ∧
    ncols out = max_list (map length tensor_list) ∧
    (∃ t, t ∈ tensor_list ∧ length t = ncols out) ∧
    Forall (λ t, length t ≤ ncols out) tensor_list ∧
    ∀ (i : nat) (t : list Z),
      tensor_list !! i = Some t →
      rows out !! i
      = Some (if pad_to_left
              then replicate (ncols out - length t)
                     (match pad_value with Some v => v | None => pad end)
                     ++ t
              else t ++ replicate (ncols out - length t)
                          (match pad_value with Some v => v | None => pad end)).
Proof.
  intros Hne Hpad. rewrite pad_and_stack_eq by (by try intros v ->).
  set (m := max_list (map length tensor_list)).
  assert (Hle : Forall (λ t, length t ≤ m) tensor_list).
  { apply Forall_forall. intros t Ht.
    apply max_list_elem_of_le.
    change (length t ∈ length <$> tensor_list).
    apply list_elem_of_fmap. eauto. }
  eexists. split; [done|]. simpl.
  split; [unfold nrows; simpl; by rewrite length_map|].
  split.
  { unfold wf. simpl. apply Forall_fmap.
    eapply Forall_impl; [exact Hle|]. simpl. intros t Ht.
    destruct pad_to_left; rewrite length_app, length_replicate; lia. }
  split; [done|].
  split.
  { assert (m ∈ length <$> tensor_list) as (t & Ht & Hin)%list_elem_of_fmap.
    { apply max_list_elem_of. by destruct tensor_list. }
    by exists t. }
  split; [done|].
  intros i t Hi. rewrite list_lookup_fmap, Hi. simpl.
  by destruct pad_value.
Qed.

(** C10. On the empty list the helper fails (there is no largest
    length); it returns no tensor. *)
Theorem pad_and_stack_empty (pad_to_left : bool) (pad_value : option Z) :
  pad_and_stack config [] pad_to_left pad_value = Raise ValueError ∧
  raises (pad_and_stack config [] pad_to_left pad_value) ∧
  ∀ out : tensor Z,
    pad_and_stack config [] pad_to_left pad_value ≠ Ok out.
Proof.
  split; [done|]. split; [by exists ValueError | done].
Qed.

End PadAndStack.

(** ** Trimming to the effective length *)

Section Trim.

(** The loop leaves a dict in which every named key holds the cut of
    the tensor the original dict has there, and every other key is as in
    the copy. *)
Lemma cut_loop_Ok (tensor_dict : gmap string (tensor Z)) (effective_len : Z)
    (cut_left : bool) (keys : list string) :
  ∀ result : gmap string (tensor Z),
    Forall (λ key, is_Some (tensor_dict !! key)) keys →
    ∃ result' : gmap string (tensor Z),
      cut_loop tensor_dict effective_len cut_left keys result = Ok result' ∧
      ∀ key : string,
        result' !! key
        = if decide (key ∈ keys)
          then (λ t, if cut_left
                     then Torch.slice_from (Int64.neg effective_len) t
                     else Torch.slice_to effective_len t) <$> tensor_dict !! key
          else result !! key.
Proof.
  induction keys as [|key keys IH]; intros result Hkeys.
  - exists result. split; [done|]. intros key.
    rewrite decide_False; [done|]. apply not_elem_of_nil.
  - apply Forall_cons in Hkeys as [[t Ht] Hkeys]. simpl.
    unfold dict_get. rewrite Ht. simpl.
    destruct (IH (<[key := if cut_left
                           then Torch.slice_from (Int64.neg effective_len) t
                           else Torch.slice_to effective_len t]> result) Hkeys)
      as (result' & Hloop & Hres).
    exists result'. split; [done|]. intros k. rewrite Hres.
    destruct (decide (k ∈ keys)) as [Hin|Hnin].
    + rewrite decide_True; [done|]. by right.
    + destruct (decide (k = key)) as [->|Hne].
      * rewrite decide_True by left. by rewrite lookup_insert_eq, Ht.
      * rewrite decide_False, lookup_insert_ne; [done..|].
        by intros [->|?]%elem_of_cons.
Qed.

(** A missing key stops the call. *)
Lemma cut_to_effective_len_no_mask (tensor_dict : gmap string (tensor Z))
    (keys : list string) (cut_left : bool) :
  tensor_dict !! "attention_mask" = None →
  cut_to_effective_len tensor_dict keys cut_left = Raise KeyError.
Proof.
  intros H. unfold cut_to_effective_len, dict_get. by rewrite H.
Qed.

(** A mask without rows has no maximum. *)
Lemma cut_to_effective_len_no_rows (tensor_dict : gmap string (tensor Z))
    (attention_mask : tensor Z) (keys : list string) (cut_left : bool) :
  tensor_dict !! "attention_mask" = Some attention_mask →
  rows attention_mask = [] →
  cut_to_effective_len tensor_dict keys cut_left = Raise RuntimeError.
Proof.
  intros H Hrows. unfold cut_to_effective_len, dict_get. rewrite H. simpl.
  unfold Torch.sum_dim1. by rewrite Hrows.
Qed.

Lemma sum_row_zeros (r : list Z) :
  Forall (λ v, v = 0%Z) r → Torch.sum_row r = 0%Z.
Proof.
  unfold Torch.sum_row. induction 1 as [|v r -> _ IH]; [done|].
  change (foldl Int64.add (Int64.add 0 0) r = 0%Z).
  unfold Int64.add at 2. by rewrite (wrap_in_range (0 + 0)).
Qed.

Lemma max_zeros (v : list Z) :
  v ≠ [] → Forall (λ x, x = 0%Z) v → Torch.max v = Ok 0%Z.
Proof.
  destruct v as [|x v]; [done|]. intros _ [-> Hv]%Forall_cons. simpl.
  f_equal. induction Hv as [|y v -> _ IH]; [done|]. simpl. apply IH.
Qed.

Lemma slice_bound_nonneg (i : Z) (n : nat) :
  (0 ≤ i)%Z → Torch.slice_bound i n = Nat.min (Z.to_nat i) n.
Proof.
  intros Hi. unfold Torch.slice_bound.
  destruct (Z.ltb_spec i 0); lia.
Qed.

Lemma slice_bound_neg (i : Z) (n : nat) :
  (i < 0)%Z → Torch.slice_bound i n = n - Z.to_nat (- i).
Proof.
  intros Hi. unfold Torch.slice_bound.
  destruct (Z.ltb_spec i 0); lia.
Qed.

Lemma neg_zero : Int64.neg 0 = 0%Z.
Proof. unfold Int64.neg. by rewrite (wrap_in_range (- 0)%Z). Qed.

Lemma slice_from_neg_zero {A} (t : tensor A) :
  Torch.slice_from (Int64.neg 0) t = t.
Proof.
  unfold Torch.slice_from. rewrite neg_zero, slice_bound_nonneg by done.
  destruct t as [w rs]. simpl. f_equal; [lia|].
  induction rs as [|r rs IH]; [done|]. simpl. by rewrite IH.
Qed.

Lemma slice_to_zero {A} (t : tensor A) :
  Torch.slice_to 0 t = Tensor 0 (replicate (nrows t) []).
Proof.
  unfold Torch.slice_to, nrows. rewrite slice_bound_nonneg by done.
  simpl. f_equal.
  induction (rows t) as [|r rs IH]; [done|]. simpl. by rewrite IH.
Qed.

(** C1. A batch, with at least one row, in which every row is all
    padding: the effective length is 0 and the call returns.  Cut on the
    right, every named tensor comes back with no column, shape
    (batch_size, 0).  Cut on the left it does not: the slice
    [[:, -effective_len:]] starts at column [-0], which is column 0, and
    every named tensor comes back as it was, at its full width. *)
Theorem cut_to_effective_len_all_pad (tensor_dict : gmap string (tensor Z))
    (attention_mask : tensor Z) (keys : list string) (cut_left : bool) :
  tensor_dict !! "attention_mask" = Some attention_mask →
  rows attention_mask ≠ [] →
  Forall (Forall (λ v, v = 0%Z)) (rows attention_mask) →
  Forall (λ key, is_Some (tensor_dict !! key)) keys →
  Torch.max (Torch.sum_dim1 attention_mask) = Ok 0%Z ∧
  ∃ result : gmap string (tensor Z),
    cut_to_effective_len tensor_dict keys cut_left = Ok result ∧
    ∀ (key : string) (t : tensor Z),
      key ∈ keys → tensor_dict !! key = Some t →
      result !! key
      = Some (if cut_left then t else Tensor 0 (replicate (nrows t) [])).
Proof.
  intros Hm Hrows Hzero Hkeys.
  assert (He : Torch.max (Torch.sum_dim1 attention_mask) = Ok 0%Z).
  { apply max_zeros.
    - unfold Torch.sum_dim1. by destruct (rows attention_mask).
    - unfold Torch.sum_dim1. apply Forall_fmap.
      eapply Forall_impl; [exact Hzero|]. apply sum_row_zeros. }
  split; [done|].
  unfold cut_to_effective_len, dict_get. rewrite Hm. simpl.
  rewrite He. simpl.
  destruct (cut_loop_Ok tensor_dict 0 cut_left keys tensor_dict Hkeys)
    as (result & Hloop & Hres).
  exists result. split; [done|]. intros key t Hin Ht.
  rewrite Hres, decide_True, Ht by done. simpl. f_equal.
  destruct cut_left; [apply slice_from_neg_zero | apply slice_to_zero].
Qed.

End Trim.

Section TrimPadded.

Variable config : TensorConfig.
Local Abbreviation pad := (pad_token_id config).

(** The sum of the mask of a row is the number of its real tokens. *)
Lemma sum_mask_from (row : list Z) :
  ∀ k : nat,
    size_ok (k + length row) →
    foldl Int64.add (Z.of_nat k)
      (map (λ x, if decide (x = pad) then 0 else 1)%Z row)
    = Z.of_nat (k + count_real pad row).
Proof.
  unfold count_real, real_tokens.
  induction row as [|y row IH]; intros k Hk; simpl in *.
  - f_equal. lia.
  - unfold Int64.add at 2. destruct (decide (y = pad)) as [Hy|Hy].
    + rewrite filter_cons_False by (intros H; by apply H).
      rewrite Z.add_0_r, wrap_in_range by (int64_consts; lia).
      apply IH. int64_consts; lia.
    + rewrite filter_cons_True by done.
      rewrite wrap_in_range by (int64_consts; lia).
      replace (Z.of_nat k + 1)%Z with (Z.of_nat (S k)) by lia.
      rewrite IH by (int64_consts; lia). simpl. f_equal. lia.
Qed.

Lemma foldl_Zmax_of_nat (l : list nat) :
  ∀ a : nat,
    foldl Z.max (Z.of_nat a) (map Z.of_nat l)
    = Z.of_nat (Nat.max a (max_list l)).
Proof.
  induction l as [|x l IH]; intros a; simpl.
  - f_equal. lia.
  - replace (Z.of_nat a `max` Z.of_nat x)%Z with (Z.of_nat (Nat.max a x))
      by lia.
    rewrite IH. f_equal. lia.
Qed.

(** The effective length is the largest number of real tokens of a
    row. *)
Lemma effective_len_max_count (t : tensor Z) :
  wf t → size_ok (ncols t) → rows t ≠ [] →
  Torch.max (Torch.sum_dim1 (create_attention_mask config t))
  = Ok (Z.of_nat (max_list (map (count_real pad) (rows t)))).
Proof.
  intros Hwf Hsize Hne.
  rewrite create_attention_mask_rows. unfold Torch.sum_dim1. simpl.
  rewrite map_map.
  assert (Hsum : map (λ row, Torch.sum_row
                     (map (λ x, if decide (x = pad) then 0 else 1)%Z row))
                   (rows t)
                 = map Z.of_nat (map (count_real pad) (rows t))).
  { rewrite map_map. apply Forall_fmap_ext_1.
    eapply Forall_impl; [exact Hwf|]. simpl. intros row Hrow.
    apply (sum_mask_from row 0). simpl. by rewrite Hrow. }
  rewrite Hsum. destruct (rows t) as [|row rs]; [done|]. simpl.
  by rewrite foldl_Zmax_of_nat.
Qed.

Lemma real_tokens_drop_pads (row : list Z) (s : nat) :
  padded_on pad true row → s ≤ count_pad pad row →
  real_tokens pad (drop s row) = real_tokens pad row.
Proof.
  intros Hrow Hs. rewrite Hrow at 1. unfold repadded.
  rewrite drop_app_le by (by rewrite length_replicate).
  by rewrite real_tokens_app, drop_replicate, real_tokens_replicate,
    real_tokens_idemp.
Qed.

Lemma real_tokens_take_reals (row : list Z) (e : nat) :
  padded_on pad false row → count_real pad row ≤ e →
  real_tokens pad (take e row) = real_tokens pad row.
Proof.
  intros Hrow He. rewrite Hrow at 1. unfold repadded.
  rewrite take_app_ge by done.
  by rewrite real_tokens_app, take_replicate, real_tokens_replicate,
    real_tokens_idemp, app_nil_r.
Qed.

(** X9. Under the precondition of the trim (the mask of the dict is the
    mask of every named tensor, and every row is padded on the side that
    is cut), the call returns and no row of a named tensor loses a real
    token.  When the effective length is not 0, or the cut is on the
    right, the named tensors come back with exactly that width: the last
    columns with [cut_left], the first ones otherwise. *)
Lemma cut_to_effective_len_keeps_real_tokens
    (tensor_dict : gmap string (tensor Z)) (attention_mask : tensor Z)
    (keys : list string) (cut_left : bool) :
  tensor_dict !! "attention_mask" = Some attention_mask →
  rows attention_mask ≠ [] →
  size_ok (ncols attention_mask) →
  Forall (λ key, ∃ t, tensor_dict !! key = Some t ∧ wf t ∧
                   create_attention_mask config t = attention_mask ∧
                   Forall (padded_on pad cut_left) (rows t)) keys →
  ∃ result : gmap string (tensor Z),
    cut_to_effective_len tensor_dict keys cut_left = Ok result ∧
    ∀ (key : string) (t : tensor Z),
      key ∈ keys → tensor_dict !! key = Some t →
      ∃ t' : tensor Z,
        result !! key = Some t' ∧
        nrows t' = nrows t ∧
        (cut_left = false ∨ 0 < max_list (map (count_real pad) (rows t)) →
         ncols t' = max_list (map (count_real pad) (rows t)) ∧
         rows t' = map (if cut_left then drop (ncols t - ncols t')
                        else take (ncols t')) (rows t)) ∧
        ∀ (i : nat) (row : list Z),
          rows t !! i = Some row →
          ∃ row' : list Z,
            rows t' !! i = Some row' ∧
            real_tokens pad row' = real_tokens pad row ∧
            count_real pad row' = count_real pad row.
Proof.
  intros Hm Hne Hsize Hkeys.
  destruct (cut_loop_Ok tensor_dict
              (default 0%Z (match Torch.max (Torch.sum_dim1 attention_mask)
                            with Ok e => Some e | Raise _ => None end))
              cut_left keys tensor_dict) as (result & Hloop & Hres).
  { eapply Forall_impl; [exact Hkeys|]. simpl. intros key (t & Ht & _).
    by exists t. }
  exists result.
  assert (Hcut : ∀ (key : string) (t : tensor Z),
    key ∈ keys → tensor_dict !! key = Some t →
    wf t ∧ Forall (padded_on pad cut_left) (rows t) ∧
    Torch.max (Torch.sum_dim1 attention_mask)
    = Ok (Z.of_nat (max_list (map (count_real pad) (rows t)))) ∧
    max_list (map (count_real pad) (rows t)) ≤ ncols t ∧
    size_ok (ncols t)).
  { intros key t Hin Ht. rewrite Forall_forall in Hkeys.
    destruct (Hkeys key Hin) as (t0 & Ht0 & Hwf & Hmask & Hpad).
    rewrite Ht in Ht0. injection Ht0 as <-.
    assert (ncols t = ncols attention_mask) as Hc by (by rewrite <- Hmask).
    assert (rows t ≠ []) as Hr.
    { intros Hnil. apply Hne. rewrite <- Hmask.
      unfold create_attention_mask, Torch.pointwise. simpl. by rewrite Hnil. }
    split; [done|]. split; [done|]. split.
    - rewrite <- Hmask. apply effective_len_max_count; [done| |done].
      by rewrite Hc.
    - split; [|by rewrite Hc].
      assert (∀ l : list nat, Forall (λ c, c ≤ ncols t) l →
                max_list l ≤ ncols t) as Hmax.
      { induction 1; simpl; lia. }
      apply Hmax, Forall_fmap. eapply Forall_impl; [exact Hwf|].
      simpl. intros row <-. unfold count_real, real_tokens.
      apply length_filter. }
  split.
  { unfold cut_to_effective_len, dict_get. rewrite Hm. simpl.
    destruct (Torch.max (Torch.sum_dim1 attention_mask)) as [e|err] eqn:He.
    - done.
    - exfalso. unfold Torch.max, Torch.sum_dim1 in He.
      by destruct (rows attention_mask). }
  intros key t Hin Ht.
  destruct (Hcut key t Hin Ht) as (Hwf & Hpad & He & Hle & Hsz).
  rewrite He in Hres. simpl in Hres.
  set (e := max_list (map (count_real pad) (rows t))) in *.
  eexists. split; [by rewrite Hres, decide_True, Ht by done|].
  assert (Hneg : Int64.neg (Z.of_nat e) = (- Z.of_nat e)%Z).
  { unfold Int64.neg. apply wrap_in_range. int64_consts. lia. }
  assert (Hcount : Forall (λ row, count_real pad row ≤ e ∧
                                  length row = ncols t) (rows t)).
  { apply Forall_forall. intros row Hrow. split.
    - apply max_list_elem_of_le.
      change (count_real pad row ∈ count_real pad <$> rows t).
      apply list_elem_of_fmap. eauto.
    - unfold wf in Hwf. rewrite Forall_forall in Hwf. by apply Hwf. }
  destruct cut_left; simpl.
  - (* cut on the left *)
    rewrite Hneg.
    assert (Hs : Torch.slice_bound (- Z.of_nat e) (ncols t)
                 = if decide (e = 0) then 0 else ncols t - e).
    { case_decide as He0.
      - rewrite He0. by rewrite slice_bound_nonneg.
      - rewrite slice_bound_neg by lia. lia. }
    unfold Torch.slice_from. rewrite Hs. simpl.
    split; [unfold nrows; simpl; by rewrite length_map|].
    split.
    { intros [?|Hpos]; [done|]. rewrite decide_False by lia.
      split; [lia|]. do 2 f_equal. lia. }
    intros i row Hi. eexists. split; [by rewrite list_lookup_fmap, Hi|].
    rewrite Forall_lookup in Hcount, Hpad.
    destruct (Hcount i row Hi) as [Hc Hl].
    assert (real_tokens pad
              (drop (if decide (e = 0) then 0 else ncols t - e) row)
            = real_tokens pad row) as Hreal.
    { apply real_tokens_drop_pads; [by apply (Hpad i)|].
      pose proof (count_pad_real_length config row).
      case_decide; lia. }
    split; [done|]. unfold count_real. by rewrite Hreal.
  - (* cut on the right *)
    unfold Torch.slice_to. rewrite slice_bound_nonneg by lia.
    rewrite Nat2Z.id, Nat.min_l by done. simpl.
    split; [unfold nrows; simpl; by rewrite length_map|].
    split; [done|].
    intros i row Hi. eexists. split; [by rewrite list_lookup_fmap, Hi|].
    rewrite Forall_lookup in Hcount, Hpad.
    destruct (Hcount i row Hi) as [Hc Hl].
    assert (real_tokens pad (take e row) = real_tokens pad row) as Hreal.
    { apply real_tokens_take_reals; [by apply (Hpad i) | done]. }
    split; [done|]. unfold count_real. by rewrite Hreal.
Qed.

End TrimPadded.

(** ** Worked examples *)

(** One row, two columns, all padding.  Cut on the left, [input_ids]
    comes back with its two columns; cut on the right, with none. *)
Example cut_left_all_pad_keeps_width :
  let input_ids := Tensor 2 [[151643; 151643]%Z] in
  let attention_mask := create_attention_mask example_config input_ids in
  let tensor_dict : gmap string (tensor Z) :=
    <["attention_mask" := attention_mask]> (<["input_ids" := input_ids]> ∅) in
  attention_mask = Tensor 2 [[0; 0]%Z] ∧
  Torch.max (Torch.sum_dim1 attention_mask) = Ok 0%Z ∧
  (cut_to_effective_len tensor_dict ["input_ids"] true
     ≫= λ result, dict_get result "input_ids")
  = Ok (Tensor 2 [[151643; 151643]%Z]) ∧
  (cut_to_effective_len tensor_dict ["input_ids"] false
     ≫= λ result, dict_get result "input_ids")
  = Ok (Tensor 0 [[]]).
Proof. repeat split; vm_compute; reflexivity. Qed.

(** C5. Two rows of three pad tokens with their mask, cut on the left:
    the precondition holds (the mask is the mask of [input_ids], the rows
    are padded on the left), the effective length is the largest count
    of real tokens, 0, and no real token is lost; yet the named tensor
    keeps its three columns instead of the last 0 of them. *)
Theorem cut_left_all_pad_not_last_columns :
  let pad := pad_token_id example_config in
  let input_ids := Tensor 3 [[pad; pad; pad]; [pad; pad; pad]] in
  let attention_mask := Tensor 3 [[0; 0; 0]; [0; 0; 0]]%Z in
  let tensor_dict : gmap string (tensor Z) :=
    <["attention_mask" := attention_mask]> (<["input_ids" := input_ids]> ∅) in
  create_attention_mask example_config input_ids = attention_mask ∧
  Forall (padded_on pad true) (rows input_ids) ∧
  Torch.max (Torch.sum_dim1 attention_mask)
  = Ok (Z.of_nat (max_list (map (count_real pad) (rows input_ids)))) ∧
  max_list (map (count_real pad) (rows input_ids)) = 0 ∧
  (cut_to_effective_len tensor_dict ["input_ids"] true
     ≫= λ result, dict_get result "input_ids")
  = Ok input_ids ∧
  ncols input_ids = 3 ∧
  Torch.slice_from (Z.of_nat (ncols input_ids) - 0) input_ids
  = Tensor 0 [[]; []].
Proof.
  repeat split; try (vm_compute; reflexivity).
  repeat constructor.
Qed.

(** The examples of the specification for the scatter and for the
    stacking. *)
Example example_level_pad_A_pad_B :
  _example_level_pad example_config (Tensor 2 [[11; 12]; [21; 22]]%Z)
    ["x"; "y"]%string [true; false; true]
  = Ok (Tensor 2 [[11; 12]; [151643; 151643]; [21; 22]]%Z,
        ["x"; ""; "y"]%string).
Proof. vm_compute. reflexivity. Qed.

Example example_level_pad_tensor_A_pad_B :
  _example_level_pad_tensor (Tensor 2 [[11; 12]; [21; 22]]%Z)
    [true; false; true] 0%Z
  = Ok (Tensor 2 [[11; 12]; [0; 0]; [21; 22]]%Z).
Proof. vm_compute. reflexivity. Qed.

Example pad_and_stack_right :
  pad_and_stack example_config [[1; 2; 3]; [4; 5]]%Z false (Some 0%Z)
  = Ok (Tensor 3 [[1; 2; 3]; [4; 5; 0]]%Z).
Proof. vm_compute. reflexivity. Qed.

Example pad_and_stack_left :
  pad_and_stack example_config [[1; 2; 3]; [4; 5]]%Z true (Some 0%Z)
  = Ok (Tensor 3 [[1; 2; 3]; [0; 4; 5]]%Z).
Proof. vm_compute. reflexivity. Qed.

Example pad_and_stack_default_pad :
  pad_and_stack example_config [[1; 2; 3]; [4; 5]]%Z true None
  = Ok (Tensor 3 [[1; 2; 3]; [151643; 4; 5]]%Z).
Proof. vm_compute. reflexivity. Qed.

(** A pad value of 2^63 is no int64: [torch.full] refuses it, also when
    no cell has to be added. *)
Example pad_and_stack_pad_value_refused :
  pad_and_stack example_config [[1; 2; 3]; [4; 5]]%Z false (Some (2 ^ 63)%Z)
  = Raise RuntimeError ∧
  pad_and_stack example_config [[1; 2; 3]; [4; 5; 6]]%Z true (Some (2 ^ 63)%Z)
  = Raise RuntimeError ∧
  pad_and_stack example_config [] true (Some (2 ^ 63)%Z) = Raise ValueError.
Proof. vm_compute. repeat split; reflexivity. Qed.

Example concatenate_prompt_observation :
  concatenate_with_padding example_config
    [Tensor 3 [[151643; 1; 2]; [151643; 151643; 3]]%Z;
     Tensor 2 [[4; 151643]; [5; 6]]%Z] true
  = Ok (Tensor 5 [[151643; 151643; 1; 2; 4]; [151643; 151643; 3; 5; 6]]%Z).
Proof. vm_compute. reflexivity. Qed.

Example convert_pad_structure_mixed :
  convert_pad_structure example_config
    (Tensor 5 [[151643; 5; 151643; 7; 8]; [1; 2; 3; 151643; 151643]]%Z) true
  = Ok (Tensor 5 [[151643; 151643; 5; 7; 8]; [151643; 151643; 1; 2; 3]]%Z,
        Tensor 5 [[0; 2; 1; 3; 4]; [3; 4; 0; 1; 2]]).
Proof. vm_compute. reflexivity. Qed.

Example position_ids_both_sides :
  create_position_ids
    (create_attention_mask example_config
       (Tensor 5 [[151643; 151643; 5; 7; 8]; [1; 2; 3; 151643; 151643]]%Z))
  = Tensor 5 [[0; 0; 0; 1; 2]; [0; 1; 2; 0; 0]]%Z.
Proof. vm_compute. reflexivity. Qed.

(** ** The theorems at concrete inputs *)

Lemma mask_and_position_ids_witness :
  let pad := pad_token_id example_config in
  let B := Tensor 5 [[pad; pad; 5; 7; 8]; [1; 2; 3; pad; pad]]%Z in
  wf B ∧ size_ok (ncols B) ∧
  ∀ (i : nat) (row : list Z),
    rows B !! i = Some row →
    ∃ mrow prow : list Z,
      rows (create_attention_mask example_config B) !! i = Some mrow ∧
      rows (create_position_ids (create_attention_mask example_config B)) !! i
        = Some prow ∧
      length mrow = length row ∧ length prow = length row ∧
      (∀ (j : nat) (x : Z),
         row !! j = Some x →
         mrow !! j = Some (if decide (x = pad) then 0 else 1)%Z ∧
         prow !! j =
           Some (if decide (x = pad) then 0%Z
                 else Z.of_nat (count_real pad (take j row)))) ∧
      (filter (λ p, p.1 ≠ pad) (zip row prow)).*2
        = Z.of_nat <$> seq 0 (count_real pad row) ∧
      Forall (λ v, 0 ≤ v)%Z prow.
Proof.
  intros pad B.
  assert (Hwf : wf B) by (repeat constructor).
  assert (Hsize : size_ok (ncols B)) by (int64_consts; simpl; lia).
  split; [exact Hwf|]. split; [exact Hsize|].
  exact (proj2 (mask_and_position_ids example_config B Hwf Hsize)).
Defined.

Lemma cut_to_effective_len_all_pad_witness :
  let pad := pad_token_id example_config in
  let input_ids := Tensor 2 [[pad; pad]] in
  let attention_mask := Tensor 2 [[0; 0]%Z] in
  let tensor_dict : gmap string (tensor Z) :=
    <["attention_mask" := attention_mask]> (<["input_ids" := input_ids]> ∅) in
  tensor_dict !! "attention_mask" = Some attention_mask ∧
  rows attention_mask ≠ [] ∧
  Forall (Forall (λ v, v = 0%Z)) (rows attention_mask) ∧
  Forall (λ key, is_Some (tensor_dict !! key)) ["input_ids"] ∧
  Torch.max (Torch.sum_dim1 attention_mask) = Ok 0%Z ∧
  ∃ result : gmap string (tensor Z),
    cut_to_effective_len tensor_dict ["input_ids"] true = Ok result ∧
    ∀ (key : string) (t : tensor Z),
      key ∈ ["input_ids"] → tensor_dict !! key = Some t →
      result !! key = Some t.
Proof.
  intros pad input_ids attention_mask tensor_dict.
  assert (Hm : tensor_dict !! "attention_mask" = Some attention_mask)
    by (vm_compute; reflexivity).
  assert (Hne : rows attention_mask ≠ []) by discriminate.
  assert (Hzero : Forall (Forall (λ v, v = 0%Z)) (rows attention_mask))
    by (repeat constructor).
  assert (Hkeys : Forall (λ key, is_Some (tensor_dict !! key)) ["input_ids"]).
  { repeat constructor. exists input_ids. vm_compute. reflexivity. }
  split; [exact Hm|]. split; [exact Hne|]. split; [exact Hzero|].
  split; [exact Hkeys|].
  exact (cut_to_effective_len_all_pad tensor_dict attention_mask
           ["input_ids"] true Hm Hne Hzero Hkeys).
Defined.

Lemma concatenate_with_padding_witness :
  let pad := pad_token_id example_config in
  let prompt := Tensor 3 [[pad; 1; 2]; [pad; pad; 3]]%Z in
  let observation := Tensor 2 [[4; pad]; [5; 6]]%Z in
  [prompt; observation] ≠ [] ∧
  Forall (λ u, nrows u = 2) [prompt; observation] ∧
  Forall wf [prompt; observation] ∧
  ∃ out : tensor Z,
    concatenate_with_padding example_config [prompt; observation] true
      = Ok out ∧
    ncols out = sum_list (ncols <$> [prompt; observation]) ∧
    nrows out = 2 ∧
    wf out ∧
    ∀ i : nat,
      i < 2 →
      ∃ (frags : list (list Z)) (orow : list Z),
        Forall2 (λ u r, rows u !! i = Some r) [prompt; observation] frags ∧
        rows out !! i = Some orow ∧
        orow = replicate (count_pad pad (concat frags)) pad
                 ++ real_tokens pad (concat frags).
Proof.
  intros pad prompt observation.
  assert (Hne : [prompt; observation] ≠ []) by discriminate.
  assert (Hn : Forall (λ u, nrows u = 2) [prompt; observation])
    by (repeat constructor).
  assert (Hwf : Forall wf [prompt; observation]) by (repeat constructor).
  split; [exact Hne|]. split; [exact Hn|]. split; [exact Hwf|].
  exact (concatenate_with_padding_spec example_config
           [prompt; observation] true 2 Hne Hn Hwf).
Defined.



Lemma pad_and_stack_spec_witness :
  let tensor_list := [[1; 2; 3]; [4; 5]]%Z in
  tensor_list ≠ [] ∧
  Int64.in_range 0 ∧
  ∃ out : tensor Z,
    pad_and_stack example_config tensor_list false (Some 0%Z) = Ok out ∧
    nrows out = length tensor_list ∧
    wf out ∧
    ncols out = max_list (map length tensor_list) ∧
    (∃ t, t ∈ tensor_list ∧ length t = ncols out) ∧
    Forall (λ t, length t ≤ ncols out) tensor_list ∧
    ∀ (i : nat) (t : list Z),
      tensor_list !! i = Some t →
      rows out !! i = Some (t ++ replicate (ncols out - length t) 0%Z).
Proof.
  intros tensor_list.
  assert (Hne : tensor_list ≠ []) by discriminate.
  assert (Hpad : Int64.in_range 0) by (split; by vm_compute).
  split; [exact Hne|]. split; [exact Hpad|].
  exact (pad_and_stack_spec example_config tensor_list false (Some 0%Z)
           Hne Hpad).
Defined.

(** ** Inputs on which the claims as written fail *)



(** * Further properties of the helper *)

(** ** Trimming: when it returns and what it leaves alone *)

Section TrimFrame.

Lemma cut_loop_missing (tensor_dict : gmap string (tensor Z))
    (effective_len : Z) (cut_left : bool) (keys : list string) :
  ∀ result : gmap string (tensor Z),
    Exists (λ key, tensor_dict !! key = None) keys →
    cut_loop tensor_dict effective_len cut_left keys result = Raise KeyError.
Proof.
  induction keys as [|key keys IH]; intros result Hex.
  - by apply Exists_nil in Hex.
  - simpl. unfold dict_get.
    destruct (tensor_dict !! key) as [t|] eqn:Ht; [|done]. simpl.
    apply IH. apply Exists_cons in Hex as [Hk|Hex]; [congruence | done].
Qed.

Lemma keys_present_or_missing (tensor_dict : gmap string (tensor Z))
    (keys : list string) :
  Forall (λ key, is_Some (tensor_dict !! key)) keys
  ∨ Exists (λ key, tensor_dict !! key = None) keys.
Proof.
  induction keys as [|key keys [IH|IH]].
  - left. constructor.
  - destruct (tensor_dict !! key) as [t|] eqn:Ht.
    + left. constructor; [by rewrite Ht | done].
    + right. by left.
  - right. by right.
Qed.

Lemma slice_bound_le (i : Z) (n : nat) : Torch.slice_bound i n ≤ n.
Proof. unfold Torch.slice_bound. destruct (Z.ltb_spec i 0); lia. Qed.

(** A slice keeps the rows, never widens, and stays rectangular. *)
Lemma slice_shape {A} (cut_left : bool) (e : Z) (t : tensor A) :
  let t' := if cut_left then Torch.slice_from e t else Torch.slice_to e t in
  nrows t' = nrows t ∧ ncols t' ≤ ncols t ∧ (wf t → wf t').
Proof.
  pose proof (slice_bound_le e (ncols t)) as Hle.
  destruct cut_left; simpl; unfold nrows, wf; simpl;
    (split; [by rewrite length_map|]); (split; [lia|]);
    intros Hwf; apply Forall_fmap; (eapply Forall_impl; [exact Hwf|]);
    simpl; intros row Hrow.
  - rewrite length_drop. lia.
  - rewrite length_take. lia.
Qed.

Lemma max_of_rows (m : tensor Z) :
  rows m ≠ [] → ∃ e, Torch.max (Torch.sum_dim1 m) = Ok e.
Proof.
  intros Hm. unfold Torch.sum_dim1.
  destruct (rows m) as [|r rs]; [done|]. simpl. eauto.
Qed.

Lemma cut_to_effective_len_missing_key (tensor_dict : gmap string (tensor Z))
    (m : tensor Z) (keys : list string) (cut_left : bool) :
  tensor_dict !! "attention_mask" = Some m → rows m ≠ [] →
  Exists (λ key, tensor_dict !! key = None) keys →
  cut_to_effective_len tensor_dict keys cut_left = Raise KeyError.
Proof.
  intros Hm Hrows Hex. unfold cut_to_effective_len, dict_get.
  rewrite Hm. simpl. destruct (max_of_rows m Hrows) as [e ->]. simpl.
  by apply cut_loop_missing.
Qed.

Lemma cut_to_effective_len_Ok_inv (tensor_dict : gmap string (tensor Z))
    (keys : list string) (cut_left : bool)
    (result : gmap string (tensor Z)) :
  cut_to_effective_len tensor_dict keys cut_left = Ok result →
  (∃ m, tensor_dict !! "attention_mask" = Some m ∧ rows m ≠ []) ∧
  Forall (λ key, is_Some (tensor_dict !! key)) keys.
Proof.
  intros Hres.
  destruct (tensor_dict !! "attention_mask") as [m|] eqn:Hm.
  2:{ by rewrite cut_to_effective_len_no_mask in Hres. }
  destruct (decide (rows m = [])) as [Hnil|Hrows].
  { by rewrite (cut_to_effective_len_no_rows _ m) in Hres. }
  split; [by exists m|].
  destruct (keys_present_or_missing tensor_dict keys) as [Hall|Hex]; [done|].
  by rewrite (cut_to_effective_len_missing_key _ m) in Hres.
Qed.

(** X1. The call returns exactly when the dict has an attention mask
    with at least one row and has every named key.  A missing mask is a
    key error whatever the keys are; a mask without rows is a runtime
    error (there is no maximum over no rows), even when no key is named;
    only then are the named keys looked up, and a missing one is a key
    error. *)
Theorem cut_to_effective_len_returns (tensor_dict : gmap string (tensor Z))
    (keys : list string) (cut_left : bool) :
  (tensor_dict !! "attention_mask" = None →
   cut_to_effective_len tensor_dict keys cut_left = Raise KeyError) ∧
  (∀ m, tensor_dict !! "attention_mask" = Some m → rows m = [] →
        cut_to_effective_len tensor_dict keys cut_left = Raise RuntimeError) ∧
  (∀ m, tensor_dict !! "attention_mask" = Some m → rows m ≠ [] →
        Exists (λ key, tensor_dict !! key = None) keys →
        cut_to_effective_len tensor_dict keys cut_left = Raise KeyError) ∧
  ((∃ result, cut_to_effective_len tensor_dict keys cut_left = Ok result)
   ↔ (∃ m, tensor_dict !! "attention_mask" = Some m ∧ rows m ≠ []) ∧
     Forall (λ key, is_Some (tensor_dict !! key)) keys).
Proof.
  split; [apply cut_to_effective_len_no_mask|].
  split; [intros m; apply cut_to_effective_len_no_rows|].
  split; [intros m; apply cut_to_effective_len_missing_key|].
  split.
  - intros [result Hres]. by eapply cut_to_effective_len_Ok_inv.
  - intros [(m & Hm & Hrows) Hall].
    unfold cut_to_effective_len, dict_get. rewrite Hm. simpl.
    destruct (max_of_rows m Hrows) as [e ->]. simpl.
    destruct (cut_loop_Ok tensor_dict e cut_left keys tensor_dict Hall)
      as (result & Hres & _).
    by exists result.
Qed.

(** X2. When the call returns, the result has the keys of the dict and
    no other; a tensor that is not named is the one of the dict; a named
    tensor has the rows of the original, is no wider, and is rectangular
    when the original is. *)
Theorem cut_to_effective_len_frame (tensor_dict : gmap string (tensor Z))
    (keys : list string) (cut_left : bool)
    (result : gmap string (tensor Z)) :
  cut_to_effective_len tensor_dict keys cut_left = Ok result →
  dom result = dom tensor_dict ∧
  (∀ key, key ∉ keys → result !! key = tensor_dict !! key) ∧
  (∀ key t, tensor_dict !! key = Some t →
     ∃ t', result !! key = Some t' ∧
           nrows t' = nrows t ∧ ncols t' ≤ ncols t ∧ (wf t → wf t')).
Proof.
  intros Hres.
  destruct (cut_to_effective_len_Ok_inv _ _ _ _ Hres)
    as [(m & Hm & Hrows) Hall].
  unfold cut_to_effective_len, dict_get in Hres. rewrite Hm in Hres.
  simpl in Hres.
  destruct (Torch.max (Torch.sum_dim1 m)) as [e|err]; [|done].
  simpl in Hres.
  destruct (cut_loop_Ok tensor_dict e cut_left keys tensor_dict Hall)
    as (result' & Hloop & Hlook).
  rewrite Hloop in Hres. injection Hres as ->.
  assert (Hkey : ∀ key t, tensor_dict !! key = Some t →
            ∃ t', result !! key = Some t' ∧
                  nrows t' = nrows t ∧ ncols t' ≤ ncols t ∧ (wf t → wf t')).
  { intros key t Ht. rewrite Hlook, Ht. case_decide; simpl.
    - eexists. split; [done|].
      destruct cut_left;
        [apply (slice_shape true) | apply (slice_shape false)].
    - exists t. split; [done|]. split; [done|]. split; [lia | done]. }
  split.
  { apply set_eq. intros key. rewrite !elem_of_dom. split.
    - rewrite Hlook. case_decide; [|done].
      destruct (tensor_dict !! key); [eauto | by intros []].
    - intros [t Ht]. destruct (Hkey key t Ht) as (t' & Ht' & _). eauto. }
  split; [|done].
  intros key Hkeys. by rewrite Hlook, decide_False.
Qed.

End TrimFrame.

(** ** Trimming along the mask *)

Section TrimMask.

(** The sum of a row of zeros and ones counts the ones. *)
Lemma sum_binary_from (r : list Z) :
  ∀ k : nat,
    Forall (λ v, v = 0 ∨ v = 1)%Z r →
    size_ok (k + length r) →
    foldl Int64.add (Z.of_nat k) r
    = Z.of_nat (k + length (filter (λ v, v = 1%Z) r)).
Proof.
  induction r as [|v r IH]; intros k Hbin Hk; simpl in *.
  - f_equal. lia.
  - apply Forall_cons in Hbin as [Hv Hbin]. unfold Int64.add at 2.
    rewrite wrap_in_range by (int64_consts; lia).
    destruct Hv as [->| ->].
    + rewrite filter_cons_False by done.
      rewrite Z.add_0_r. apply IH; [done|]. int64_consts; lia.
    + rewrite filter_cons_True by done.
      replace (Z.of_nat k + 1)%Z with (Z.of_nat (S k)) by lia.
      rewrite IH by (done || (int64_consts; lia)). simpl. f_equal. lia.
Qed.

Lemma effective_len_binary (m : tensor Z) :
  wf m → size_ok (ncols m) → rows m ≠ [] →
  Forall (Forall (λ v, v = 0 ∨ v = 1)%Z) (rows m) →
  Torch.max (Torch.sum_dim1 m)
  = Ok (Z.of_nat
          (max_list (map (λ r, length (filter (λ v, v = 1%Z) r)) (rows m)))).
Proof.
  intros Hwf Hsize Hne Hbin. unfold Torch.sum_dim1.
  assert (Hsum : map Torch.sum_row (rows m)
                 = map Z.of_nat
                     (map (λ r, length (filter (λ v, v = 1%Z) r)) (rows m))).
  { rewrite map_map. apply Forall_fmap_ext_1.
    unfold wf in Hwf. rewrite Forall_forall in Hwf, Hbin |- *.
    intros r Hr. apply (sum_binary_from r 0); [by apply Hbin|].
    simpl. by rewrite (Hwf r Hr). }
  rewrite Hsum. destruct (rows m) as [|r rs]; [done|]. simpl.
  by rewrite foldl_Zmax_of_nat.
Qed.

Lemma ones_of_padded_mask (k c : nat) :
  length (filter (λ v, v = 1%Z) (replicate k 0%Z ++ replicate c 1%Z)) = c ∧
  length (filter (λ v, v = 1%Z) (replicate c 1%Z ++ replicate k 0%Z)) = c.
Proof.
  rewrite !filter_app, !length_app.
  rewrite (filter_none _ (replicate k 0%Z)), (filter_all _ (replicate c 1%Z));
    [rewrite length_replicate; simpl; lia | |];
    apply Forall_forall; by intros v ->%elem_of_replicate_inv.
Qed.

(** X3. Let the mask be rectangular, made of zeros and ones, with the
    zeros of every row on the side that is cut.  When the call returns,
    a named tensor as wide as the mask loses a number [s] of columns on
    that side and nothing else, and in every row of the mask all of the
    columns that are lost hold 0: no column that some row marks as real
    is removed, whatever the tensor holds. *)
Theorem cut_to_effective_len_removes_masked_columns
    (tensor_dict result : gmap string (tensor Z)) (m t : tensor Z)
    (keys : list string) (key : string) (cut_left : bool) :
  cut_to_effective_len tensor_dict keys cut_left = Ok result →
  tensor_dict !! "attention_mask" = Some m →
  wf m → size_ok (ncols m) →
  Forall (λ mrow, ∃ k c : nat,
            mrow = if cut_left then replicate k 0%Z ++ replicate c 1%Z
                   else replicate c 1%Z ++ replicate k 0%Z) (rows m) →
  key ∈ keys → tensor_dict !! key = Some t → ncols t = ncols m →
  ∃ (s : nat) (t' : tensor Z),
    s ≤ ncols t ∧
    result !! key = Some t' ∧
    ncols t' = ncols t - s ∧
    rows t' = map (if cut_left then drop s else take (ncols t - s)) (rows t) ∧
    Forall (λ mrow, Forall (λ v, v = 0%Z)
                      (if cut_left then take s mrow
                       else drop (ncols m - s) mrow)) (rows m).
Proof.
  intros Hres Hm Hwf Hsize Hpad Hin Ht Hcols.
  destruct (cut_to_effective_len_Ok_inv _ _ _ _ Hres)
    as [(m' & Hm' & Hrows) Hall].
  rewrite Hm in Hm'. injection Hm' as <-.
  assert (Hbin : Forall (Forall (λ v, v = 0 ∨ v = 1)%Z) (rows m)).
  { eapply Forall_impl; [exact Hpad|]. simpl. intros mrow (k & c & ->).
    destruct cut_left; apply Forall_app; split; apply Forall_forall;
      intros v ->%elem_of_replicate_inv; auto. }
  pose proof (effective_len_binary m Hwf Hsize Hrows Hbin) as He.
  set (e := max_list (map (λ r, length (filter (λ v, v = 1%Z) r)) (rows m)))
    in *.
  assert (Hrow : Forall (λ mrow, ∃ k c : nat,
                   (mrow = if cut_left
                           then replicate k 0%Z ++ replicate c 1%Z
                           else replicate c 1%Z ++ replicate k 0%Z) ∧
                   c ≤ e ∧ k + c = ncols m) (rows m)).
  { unfold wf in Hwf. rewrite Forall_forall in Hwf, Hpad |- *.
    intros mrow Hmrow. destruct (Hpad mrow Hmrow) as (k & c & Heq).
    exists k, c. split; [done|]. split.
    - assert (length (filter (λ v, v = 1%Z) mrow) ≤ e) as Hle.
      { apply max_list_elem_of_le.
        change (length (filter (λ v, v = 1%Z) mrow)
                ∈ (λ r, length (filter (λ v, v = 1%Z) r)) <$> rows m).
        apply list_elem_of_fmap. eauto. }
      rewrite Heq in Hle.
      destruct cut_left;
        [rewrite (proj1 (ones_of_padded_mask k c)) in Hle
        |rewrite (proj2 (ones_of_padded_mask k c)) in Hle]; done.
    - rewrite <- (Hwf mrow Hmrow), Heq.
      destruct cut_left; rewrite length_app, !length_replicate; lia. }
  assert (Hle : e ≤ ncols m).
  { assert (∀ l : list nat, Forall (λ c, c ≤ ncols m) l →
              max_list l ≤ ncols m) as Hmax by (induction 1; simpl; lia).
    apply Hmax, Forall_fmap. unfold wf in Hwf.
    eapply Forall_impl; [exact Hwf|]. simpl. intros r <-.
    apply length_filter. }
  unfold cut_to_effective_len, dict_get in Hres. rewrite Hm in Hres.
  simpl in Hres. rewrite He in Hres. simpl in Hres.
  destruct (cut_loop_Ok tensor_dict (Z.of_nat e) cut_left keys tensor_dict
              Hall) as (result' & Hloop & Hlook).
  rewrite Hloop in Hres. injection Hres as ->.
  specialize (Hlook key). rewrite decide_True, Ht in Hlook by done.
  simpl in Hlook.
  destruct cut_left.
  - (* the cut is on the left *)
    assert (Hneg : Int64.neg (Z.of_nat e) = (- Z.of_nat e)%Z).
    { unfold Int64.neg. apply wrap_in_range. int64_consts. lia. }
    assert (Hs : Torch.slice_bound (- Z.of_nat e) (ncols t)
                 = if decide (e = 0) then 0 else ncols t - e).
    { case_decide as He0.
      - rewrite He0. by rewrite slice_bound_nonneg.
      - rewrite slice_bound_neg by lia. lia. }
    exists (if decide (e = 0) then 0 else ncols t - e). eexists.
    split; [case_decide; lia|].
    split; [exact Hlook|].
    unfold Torch.slice_from. rewrite Hneg, Hs. simpl.
    split; [done|]. split; [done|].
    eapply Forall_impl; [exact Hrow|]. simpl.
    intros mrow (k & c & -> & Hc & Hk).
    rewrite take_app_le by (rewrite length_replicate; case_decide; lia).
    rewrite take_replicate. apply Forall_forall.
    by intros v ->%elem_of_replicate_inv.
  - (* the cut is on the right *)
    exists (ncols t - e). eexists.
    split; [lia|].
    split; [exact Hlook|].
    unfold Torch.slice_to. rewrite slice_bound_nonneg by lia.
    rewrite Nat2Z.id, Nat.min_l by lia. simpl.
    replace (ncols t - (ncols t - e)) with e by lia.
    split; [done|]. split; [done|].
    eapply Forall_impl; [exact Hrow|]. simpl.
    intros mrow (k & c & -> & Hc & Hk).
    replace (ncols m - (ncols t - e)) with e by lia.
    rewrite drop_app_ge by (rewrite length_replicate; lia).
    rewrite drop_replicate. apply Forall_forall.
    by intros v ->%elem_of_replicate_inv.
Qed.

End TrimMask.

(** ** Trimming: a full row, and trimming again *)

Section TrimAgain.

Lemma slice_from_idle {A} (start : Z) (t : tensor A) :
  Torch.slice_bound start (ncols t) = 0 → Torch.slice_from start t = t.
Proof.
  intros Hs. unfold Torch.slice_from. rewrite Hs.
  destruct t as [w rs]. simpl. f_equal; [lia|].
  induction rs as [|r rs IH]; [done|]. simpl. by rewrite IH.
Qed.

Lemma slice_to_idle {A} (stop : Z) (t : tensor A) :
  Forall (λ r, length r ≤ ncols t) (rows t) →
  Torch.slice_bound stop (ncols t) = ncols t → Torch.slice_to stop t = t.
Proof.
  intros Hwf Hs. unfold Torch.slice_to. rewrite Hs.
  destruct t as [w rs]. simpl in *. f_equal.
  induction Hwf as [|r rs Hr _ IH]; [done|]. simpl.
  by rewrite IH, take_ge.
Qed.

(** The bound at which the left cut starts, for an effective length
    [e] that is at most the width [n]. *)
Lemma slice_bound_left (e n : nat) :
  e ≤ n → size_ok n →
  Torch.slice_bound (Int64.neg (Z.of_nat e)) n
  = if decide (e = 0) then 0 else n - e.
Proof.
  intros Hle Hn.
  assert (Int64.neg (Z.of_nat e) = (- Z.of_nat e)%Z) as ->.
  { unfold Int64.neg. apply wrap_in_range. int64_consts. lia. }
  case_decide as He0.
  - rewrite He0. by rewrite slice_bound_nonneg.
  - rewrite slice_bound_neg by lia. lia.
Qed.

Lemma ones_le_width (m : tensor Z) :
  wf m →
  max_list (map (λ r, length (filter (λ v, v = 1%Z) r)) (rows m)) ≤ ncols m.
Proof.
  intros Hwf.
  assert (∀ l : list nat, Forall (λ c, c ≤ ncols m) l →
            max_list l ≤ ncols m) as Hmax by (induction 1; simpl; lia).
  apply Hmax, Forall_fmap. eapply Forall_impl; [exact Hwf|].
  simpl. intros r <-. apply length_filter.
Qed.

(** X20. When some row of the mask is all ones (a row without
    padding), nothing is cut: a rectangular named tensor as wide as the
    mask comes back as it was, on either side. *)
Theorem cut_to_effective_len_full_row
    (tensor_dict result : gmap string (tensor Z)) (m t : tensor Z)
    (keys : list string) (key : string) (cut_left : bool) :
  cut_to_effective_len tensor_dict keys cut_left = Ok result →
  tensor_dict !! "attention_mask" = Some m →
  wf m → size_ok (ncols m) →
  Forall (Forall (λ v, v = 0 ∨ v = 1)%Z) (rows m) →
  Exists (Forall (λ v, v = 1%Z)) (rows m) →
  key ∈ keys → tensor_dict !! key = Some t → wf t → ncols t = ncols m →
  result !! key = Some t.
Proof.
  intros Hres Hm Hwf Hsize Hbin Hfull Hin Ht Hwft Hcols.
  destruct (cut_to_effective_len_Ok_inv _ _ _ _ Hres)
    as [(m' & Hm' & Hrows) Hall].
  rewrite Hm in Hm'. injection Hm' as <-.
  pose proof (effective_len_binary m Hwf Hsize Hrows Hbin) as He.
  pose proof (ones_le_width m Hwf) as Hle.
  set (e := max_list (map (λ r, length (filter (λ v, v = 1%Z) r)) (rows m)))
    in *.
  assert (He_n : e = ncols m).
  { apply Nat.le_antisymm; [done|].
    apply Exists_exists in Hfull as (mrow & Hmrow & Hones).
    assert (length (filter (λ v, v = 1%Z) mrow) ≤ e) as Hc.
    { apply max_list_elem_of_le.
      change (length (filter (λ v, v = 1%Z) mrow)
              ∈ (λ r, length (filter (λ v, v = 1%Z) r)) <$> rows m).
      apply list_elem_of_fmap. eauto. }
    rewrite filter_all in Hc by done.
    unfold wf in Hwf. rewrite Forall_forall in Hwf.
    by rewrite (Hwf mrow Hmrow) in Hc. }
  unfold cut_to_effective_len, dict_get in Hres. rewrite Hm in Hres.
  simpl in Hres. rewrite He in Hres. simpl in Hres.
  destruct (cut_loop_Ok tensor_dict (Z.of_nat e) cut_left keys tensor_dict
              Hall) as (result' & Hloop & Hlook).
  rewrite Hloop in Hres. injection Hres as ->.
  rewrite Hlook, decide_True, Ht by done. simpl. f_equal.
  destruct cut_left.
  - apply slice_from_idle. rewrite slice_bound_left by (rewrite Hcols; lia || done).
    case_decide; lia.
  - apply slice_to_idle.
    + eapply Forall_impl; [exact Hwft|]. simpl. lia.
    + rewrite slice_bound_nonneg by lia. lia.
Qed.

Lemma foldl_add_zeros (j : nat) (acc : Z) :
  Int64.in_range acc → foldl Int64.add acc (replicate j 0%Z) = acc.
Proof.
  intros Hacc. induction j as [|j IH]; [done|]. simpl.
  unfold Int64.add at 2. by rewrite Z.add_0_r, wrap_in_range.
Qed.

Lemma foldl_add_in_range (l : list Z) :
  ∀ acc, Int64.in_range acc → Int64.in_range (foldl Int64.add acc l).
Proof.
  induction l as [|v l IH]; intros acc Hacc; [done|]. simpl.
  apply IH, wrap_range.
Qed.

Lemma sum_row_zeros_l (j : nat) (l : list Z) :
  Torch.sum_row (replicate j 0%Z ++ l) = Torch.sum_row l.
Proof.
  unfold Torch.sum_row. rewrite foldl_app, foldl_add_zeros; [done|].
  int64_consts. lia.
Qed.

Lemma sum_row_zeros_r (j : nat) (l : list Z) :
  Torch.sum_row (l ++ replicate j 0%Z) = Torch.sum_row l.
Proof.
  unfold Torch.sum_row. rewrite foldl_app. apply foldl_add_zeros.
  apply foldl_add_in_range. int64_consts. lia.
Qed.

(** X21. Trimming a trimmed batch changes nothing.  Let the mask be
    rectangular, of zeros and ones, with the zeros of every row on the
    side that is cut, and let the named tensors be as wide as the mask;
    then the dict that one call returns is returned unchanged by a
    second call with the same keys and side, whether or not the mask is
    itself among the keys. *)
Theorem cut_to_effective_len_twice
    (tensor_dict result : gmap string (tensor Z)) (m : tensor Z)
    (keys : list string) (cut_left : bool) :
  cut_to_effective_len tensor_dict keys cut_left = Ok result →
  tensor_dict !! "attention_mask" = Some m →
  wf m → size_ok (ncols m) →
  Forall (λ mrow, ∃ k c : nat,
            mrow = if cut_left then replicate k 0%Z ++ replicate c 1%Z
                   else replicate c 1%Z ++ replicate k 0%Z) (rows m) →
  Forall (λ key, ∀ t, tensor_dict !! key = Some t → ncols t = ncols m) keys →
  cut_to_effective_len result keys cut_left = Ok result.
Proof.
  intros Hres Hm Hwf Hsize Hpad Hcols.
  destruct (cut_to_effective_len_Ok_inv _ _ _ _ Hres)
    as [(m' & Hm' & Hrows) Hall].
  rewrite Hm in Hm'. injection Hm' as <-.
  assert (Hbin : Forall (Forall (λ v, v = 0 ∨ v = 1)%Z) (rows m)).
  { eapply Forall_impl; [exact Hpad|]. simpl. intros mrow (k & c & ->).
    destruct cut_left; apply Forall_app; split; apply Forall_forall;
      intros v ->%elem_of_replicate_inv; auto. }
  pose proof (effective_len_binary m Hwf Hsize Hrows Hbin) as He.
  pose proof (ones_le_width m Hwf) as Hle.
  set (e := max_list (map (λ r, length (filter (λ v, v = 1%Z) r)) (rows m)))
    in *.
  set (cut := λ t : tensor Z,
         if cut_left then Torch.slice_from (Int64.neg (Z.of_nat e)) t
         else Torch.slice_to (Z.of_nat e) t).
  unfold cut_to_effective_len, dict_get in Hres. rewrite Hm in Hres.
  simpl in Hres. rewrite He in Hres. simpl in Hres.
  destruct (cut_loop_Ok tensor_dict (Z.of_nat e) cut_left keys tensor_dict
              Hall) as (result' & Hloop & Hlook).
  rewrite Hloop in Hres. injection Hres as ->.
  fold cut in Hlook.
  (* the mask of the result has the row sums of the mask *)
  assert (Hrow : Forall (λ mrow, ∃ k c : nat,
                   (mrow = if cut_left
                           then replicate k 0%Z ++ replicate c 1%Z
                           else replicate c 1%Z ++ replicate k 0%Z) ∧
                   c ≤ e ∧ k + c = ncols m) (rows m)).
  { unfold wf in Hwf. rewrite Forall_forall in Hwf, Hpad |- *.
    intros mrow Hmrow. destruct (Hpad mrow Hmrow) as (k & c & Heq).
    exists k, c. split; [done|]. split.
    - assert (length (filter (λ v, v = 1%Z) mrow) ≤ e) as Hc.
      { apply max_list_elem_of_le.
        change (length (filter (λ v, v = 1%Z) mrow)
                ∈ (λ r, length (filter (λ v, v = 1%Z) r)) <$> rows m).
        apply list_elem_of_fmap. eauto. }
      rewrite Heq in Hc.
      destruct cut_left;
        [rewrite (proj1 (ones_of_padded_mask k c)) in Hc
        |rewrite (proj2 (ones_of_padded_mask k c)) in Hc]; done.
    - rewrite <- (Hwf mrow Hmrow), Heq.
      destruct cut_left; rewrite length_app, !length_replicate; lia. }
  assert (Hsum : Torch.sum_dim1 (cut m) = Torch.sum_dim1 m).
  { unfold Torch.sum_dim1, cut. destruct cut_left; simpl.
    - rewrite slice_bound_left by done. rewrite map_map.
      apply Forall_fmap_ext_1. eapply Forall_impl; [exact Hrow|]. simpl.
      intros mrow (k & c & -> & Hc & Hk).
      rewrite drop_app_le by (rewrite length_replicate; case_decide; lia).
      by rewrite drop_replicate, !sum_row_zeros_l.
    - rewrite slice_bound_nonneg by lia.
      rewrite Nat2Z.id, Nat.min_l by lia. rewrite map_map.
      apply Forall_fmap_ext_1. eapply Forall_impl; [exact Hrow|]. simpl.
      intros mrow (k & c & -> & Hc & Hk).
      rewrite take_app_ge by (by rewrite length_replicate).
      by rewrite take_replicate, !sum_row_zeros_r. }
  assert (Hmask : ∃ m1, result !! "attention_mask" = Some m1 ∧
                        Torch.max (Torch.sum_dim1 m1) = Ok (Z.of_nat e)).
  { rewrite Hlook, Hm. case_decide; simpl.
    - exists (cut m). split; [done|]. by rewrite Hsum.
    - by exists m. }
  destruct Hmask as (m1 & Hm1 & He1).
  (* a cut tensor is cut to itself *)
  assert (Hidem : ∀ t : tensor Z, ncols t = ncols m → cut (cut t) = cut t).
  { intros t Ht. unfold cut. destruct cut_left.
    - apply slice_from_idle. unfold Torch.slice_from at 1. simpl.
      rewrite (slice_bound_left e (ncols t)) by (rewrite Ht; done || lia).
      rewrite slice_bound_left; [case_decide; [done | lia] | |].
      + case_decide; lia.
      + int64_consts. lia.
    - apply slice_to_idle; unfold Torch.slice_to; simpl.
      + apply Forall_fmap, Forall_forall. intros r _. simpl.
        rewrite length_take. lia.
      + rewrite !slice_bound_nonneg by lia. lia. }
  unfold cut_to_effective_len, dict_get. rewrite Hm1. simpl.
  rewrite He1. simpl.
  assert (Hall' : Forall (λ key, is_Some (result !! key)) keys).
  { rewrite Forall_forall in Hall |- *. intros key Hkey.
    destruct (Hall key Hkey) as [t Ht].
    rewrite Hlook, decide_True, Ht by done. by eexists. }
  destruct (cut_loop_Ok result (Z.of_nat e) cut_left keys result Hall')
    as (result2 & Hloop2 & Hlook2).
  rewrite Hloop2. f_equal. fold cut in Hlook2.
  apply map_eq. intros key. rewrite Hlook2.
  case_decide as Hkey; [|done].
  rewrite Hlook, decide_True by done.
  rewrite Forall_forall in Hcols.
  destruct (tensor_dict !! key) as [t|] eqn:Ht; [|done]. simpl.
  f_equal. apply Hidem. by apply (Hcols key Hkey).
Qed.

End TrimAgain.

(** ** Pad-side conversion: idle on a padded batch, and its indices *)

Section PadSideMore.

Variable config : TensorConfig.
Local Abbreviation pad := (pad_token_id config).

(** The insertion sort leaves a sorted list as it is. *)
Lemma sort_keys_sorted_id (l : list (Z * nat)) :
  StronglySorted (λ p q : Z * nat, (p.1 ≤ q.1)%Z) l → Torch.sort_keys l = l.
Proof.
  induction 1 as [|p l Hl IH Hp]; [done|]. simpl. rewrite IH.
  destruct l as [|q l]; [done|]. simpl.
  apply Forall_cons in Hp as [Hpq _].
  destruct (Z.ltb_spec q.1 p.1); [lia | done].
Qed.

Lemma zip_sorted (keys : list Z) :
  StronglySorted Z.le keys →
  ∀ ix : list nat,
    StronglySorted (λ p q : Z * nat, (p.1 ≤ q.1)%Z) (zip keys ix).
Proof.
  induction 1 as [|k keys Hs IH Hk]; intros ix; [constructor|].
  destruct ix as [|j ix]; [constructor|]. simpl.
  constructor; [apply IH|]. apply Forall_forall. intros [k' j'] Hin.
  apply elem_of_zip_l in Hin. rewrite Forall_forall in Hk. by apply Hk.
Qed.

Lemma argsort_row_sorted_id (keys : list Z) :
  StronglySorted Z.le keys → Torch.argsort_row keys = seq 0 (length keys).
Proof.
  intros Hs. unfold Torch.argsort_row.
  rewrite sort_keys_sorted_id by (by apply zip_sorted).
  apply snd_zip. by rewrite length_seq.
Qed.

Lemma zeros_ones_sorted (l0 l1 : list Z) :
  Forall (λ v, v = 0%Z) l0 → Forall (λ v, v = 1%Z) l1 →
  StronglySorted Z.le (l0 ++ l1).
Proof.
  intros H0 H1.
  assert (Hconst : ∀ (c : Z) (l : list Z),
            Forall (λ v, v = c) l → StronglySorted Z.le l).
  { intros c l Hl. induction Hl as [|v l -> Hl IH]; constructor; [done|].
    eapply Forall_impl; [exact Hl|]. simpl. lia. }
  apply StronglySorted_app. split; [|split; eauto].
  rewrite Forall_forall in H0, H1. intros x1 x2 Hx1 Hx2.
  rewrite (H0 x1 Hx1), (H1 x2 Hx2). lia.
Qed.

Lemma keys_of_padded_sorted (side : bool) (row : list Z) :
  padded_on pad side row →
  StronglySorted Z.le
    (map Int64.of_bool
       (map (if side then ne_pad config else eq_pad config) row)).
Proof.
  intros Hrow. rewrite Hrow. unfold repadded, real_tokens.
  rewrite <- filter_pad_replicate.
  destruct side; rewrite !map_app; apply zeros_ones_sorted;
    apply Forall_fmap, Forall_fmap, Forall_forall;
    intros x [Hx _]%list_elem_of_filter; simpl;
    unfold ne_pad, eq_pad; destruct (Z.eqb_spec x pad); done.
Qed.

(** X4. On a rectangular batch whose rows already have their padding on
    the requested side the conversion is idle: it returns the batch
    itself, and the indices it returns are 0, 1, .., width-1 in every
    row (the sort is stable, so nothing moves). *)
Theorem convert_pad_structure_padded_idle (t : tensor Z) (pad_to_left : bool) :
  wf t →
  Forall (padded_on pad pad_to_left) (rows t) →
  convert_pad_structure config t pad_to_left
  = Ok (t, Tensor (ncols t) (replicate (nrows t) (seq 0 (ncols t)))).
Proof.
  intros Hwf Hpad. rewrite convert_pad_structure_eq. do 2 f_equal.
  - destruct t as [w rs]. simpl in *. f_equal. clear Hwf.
    induction Hpad as [|row rs Hrow _ IH]; [done|]. simpl.
    unfold padded_on in Hrow. by rewrite IH, <- Hrow.
  - f_equal. unfold nrows, wf in *.
    induction Hpad as [|row rs Hrow _ IH]; [done|].
    apply Forall_cons in Hwf as [Hlen Hwf]. simpl.
    rewrite IH by done. f_equal.
    rewrite argsort_row_sorted_id by (by apply keys_of_padded_sorted).
    by rewrite !length_map, Hlen.
Qed.

(** Gathering a companion row along the positions of the cells with a
    given key reads the companions of those cells, in their order. *)
Lemma gather_row_filter_zip {B} (k : Z) (keys : list Z) :
  ∀ (u pre : list B),
    length keys = length u →
    Torch.gather_row (pre ++ u)
      (filter (λ q, q.1 = k) (zip keys (seq (length pre) (length keys)))).*2
    = Ok (filter (λ p, p.1 = k) (zip keys u)).*2.
Proof.
  induction keys as [|key keys IH]; intros u pre Hlen; [done|].
  destruct u as [|y u]; [done|]. simpl in Hlen.
  simpl. rewrite !filter_cons. simpl.
  specialize (IH u (pre ++ [y]) ltac:(lia)).
  rewrite <- app_assoc, length_app, Nat.add_1_r in IH. simpl in IH.
  case_decide; simpl; [|done].
  rewrite lookup_app_r, Nat.sub_diag by done. simpl.
  apply bind_Ok. eexists. split; [exact IH | done].
Qed.

Lemma filter_zip_keys {B} (kf : Z → Z) (k : Z) (P : Z * B → Prop)
    `{!∀ p, Decision (P p)} (row : list Z) :
  (∀ x y, kf x = k ↔ P (x, y)) →
  ∀ u : list B,
    (filter (λ p, p.1 = k) (zip (map kf row) u)).*2
    = (filter P (zip row u)).*2.
Proof.
  intros Hiff. induction row as [|x row IH]; intros u; [done|].
  destruct u as [|y u]; [done|]. simpl. rewrite !filter_cons. simpl.
  destruct (decide (P (x, y))) as [Hp|Hp].
  - rewrite decide_True by (by apply (Hiff x y)). simpl. by rewrite IH.
  - rewrite decide_False by (by rewrite (Hiff x y)). apply IH.
Qed.

(** Along the sorted indices of a row of tokens, a companion row comes
    out as the companions of the cells sorted first, then those of the
    cells sorted last. *)
Lemma gather_companion_row {B} (pad_to_left : bool) (row : list Z)
    (u : list B) :
  length u = length row →
  Torch.gather_row u
    (Torch.argsort_row
       (map Int64.of_bool
          (map (if pad_to_left then ne_pad config else eq_pad config) row)))
  = Ok (if pad_to_left
        then (filter (λ p, p.1 = pad) (zip row u)).*2
               ++ (filter (λ p, p.1 ≠ pad) (zip row u)).*2
        else (filter (λ p, p.1 ≠ pad) (zip row u)).*2
               ++ (filter (λ p, p.1 = pad) (zip row u)).*2).
Proof.
  intros Hlen. unfold Torch.argsort_row.
  set (keys := map Int64.of_bool
                 (map (if pad_to_left then ne_pad config
                       else eq_pad config) row)).
  assert (Hk : length keys = length u)
    by (unfold keys; by rewrite !length_map).
  rewrite sort_keys_binary.
  2:{ apply Forall_forall. intros [k j] Hq. simpl.
      apply elem_of_zip_l in Hq. unfold keys in Hq.
      apply list_elem_of_fmap in Hq as (b & -> & _).
      unfold Int64.of_bool. destruct b; auto. }
  rewrite fmap_app.
  erewrite gather_row_app;
    [| apply (gather_row_filter_zip 0%Z keys u [] Hk)
     | apply (gather_row_filter_zip 1%Z keys u [] Hk)].
  f_equal.
  unfold keys. rewrite map_map.
  destruct pad_to_left; f_equal;
    apply (filter_zip_keys
             (λ x, Int64.of_bool (_ x)) _ (λ p : Z * B, _)); intros x y; simpl;
    unfold ne_pad, eq_pad, Int64.of_bool;
    destruct (Z.eqb_spec x pad); simpl; split; (done || lia || auto).
Qed.

(** X5. The indices of a conversion carry any companion tensor of the
    same shape along with the tokens: gathering the companion by them
    never fails, and in each row the companions of the pad cells come
    out on the requested side and the companions of the real tokens on
    the other, each group in its original order, so the row is a
    permutation of the companion row. *)
Theorem convert_pad_structure_companion {B} (t out : tensor Z)
    (sorted_indices : tensor nat) (u : tensor B) (pad_to_left : bool) :
  convert_pad_structure config t pad_to_left = Ok (out, sorted_indices) →
  nrows u = nrows t →
  (∀ i urow row, rows u !! i = Some urow → rows t !! i = Some row →
                 length urow = length row) →
  ∃ u' : tensor B,
    Torch.gather1 u sorted_indices = Ok u' ∧
    ncols u' = ncols t ∧ nrows u' = nrows t ∧
    ∀ (i : nat) (urow : list B) (row : list Z),
      rows u !! i = Some urow → rows t !! i = Some row →
      ∃ urow' : list B,
        rows u' !! i = Some urow' ∧
        urow' ≡ₚ urow ∧
        urow' = (if pad_to_left
                 then (filter (λ p, p.1 = pad) (zip row urow)).*2
                        ++ (filter (λ p, p.1 ≠ pad) (zip row urow)).*2
                 else (filter (λ p, p.1 ≠ pad) (zip row urow)).*2
                        ++ (filter (λ p, p.1 = pad) (zip row urow)).*2).
Proof.
  intros Hconv Hn Hlen.
  rewrite convert_pad_structure_eq in Hconv. injection Hconv as <- <-.
  unfold Torch.gather1. simpl.
  set (ix := λ row : list Z,
         Torch.argsort_row
           (map Int64.of_bool
              (map (if pad_to_left then ne_pad config
                    else eq_pad config) row))).
  set (g := λ (row : list Z) (urow : list B),
         if pad_to_left
         then (filter (λ p, p.1 = pad) (zip row urow)).*2
                ++ (filter (λ p, p.1 ≠ pad) (zip row urow)).*2
         else (filter (λ p, p.1 ≠ pad) (zip row urow)).*2
                ++ (filter (λ p, p.1 = pad) (zip row urow)).*2).
  assert (Hrows : ∀ (rs : list (list Z)) (us : list (list B)),
            length us = length rs →
            (∀ i urow row, us !! i = Some urow → rs !! i = Some row →
                           length urow = length row) →
            Torch.gather_rows us (map ix rs) = Ok (zip_with g rs us)).
  { induction rs as [|row rs IH]; intros [|urow us] Hl Hlens; try done.
    simpl.
    unfold ix in *. cbv beta.
    rewrite gather_companion_row by (by apply (Hlens 0)).
    simpl. rewrite IH; [done | simpl in Hl; lia|].
    intros i ur r Hu Hr. by apply (Hlens (S i)). }
  rewrite (Hrows (rows t) (rows u)) by done. simpl.
  eexists. split; [done|]. simpl.
  split; [done|].
  split; [unfold nrows in *; simpl; rewrite length_zip_with; lia|].
  intros i urow row Hu Hr. exists (g row urow).
  split; [by rewrite lookup_zip_with, Hr, Hu|].
  split; [|done].
  assert (Hperm : (filter (λ p, p.1 = pad) (zip row urow)).*2
                    ++ (filter (λ p, p.1 ≠ pad) (zip row urow)).*2
                  ≡ₚ urow).
  { rewrite <- fmap_app.
    rewrite (filter_app_complement (λ p : Z * B, p.1 = pad) (zip row urow)).
    rewrite snd_zip; [done|]. by rewrite (Hlen i urow row). }
  unfold g. destruct pad_to_left; [done|]. by rewrite (comm app).
Qed.

End PadSideMore.

(** ** Masks and position ids across a conversion *)

Section ConvertMaskPosition.

Variable config : TensorConfig.
Local Abbreviation pad := (pad_token_id config).

Lemma gather_row_map {A B} (f : A → B) (r : list A) (ix : list nat) :
  Torch.gather_row (map f r) ix = map f <$> Torch.gather_row r ix.
Proof.
  induction ix as [|j ix IH]; [done|]. simpl.
  change (map f r !! j) with ((f <$> r) !! j). rewrite list_lookup_fmap.
  destruct (r !! j) as [x|]; [|done]. simpl. rewrite IH.
  by destruct (Torch.gather_row r ix).
Qed.

Lemma gather_rows_map_cells {A B} (f : A → B) (rs : list (list A)) :
  ∀ ix : list (list nat),
    Torch.gather_rows (map (map f) rs) ix
    = map (map f) <$> Torch.gather_rows rs ix.
Proof.
  induction rs as [|r rs IH]; intros [|i ix]; try done.
  simpl. rewrite gather_row_map, IH.
  destruct (Torch.gather_row r i); [|done]. simpl.
  by destruct (Torch.gather_rows rs ix).
Qed.

(** X6. A tensor computed cell by cell from the tokens moves with
    them: gathering it along the indices of a conversion gives what the
    same computation gives on the converted batch.  In particular the
    attention mask of the converted batch is the gathered attention mask
    of the input. *)
Theorem convert_pad_structure_pointwise {B} (f : Z → B) (t out : tensor Z)
    (sorted_indices : tensor nat) (pad_to_left : bool) :
  convert_pad_structure config t pad_to_left = Ok (out, sorted_indices) →
  Torch.gather1 (Torch.pointwise f t) sorted_indices
    = Ok (Torch.pointwise f out) ∧
  Torch.gather1 (create_attention_mask config t) sorted_indices
    = Ok (create_attention_mask config out).
Proof.
  intros Hconv. unfold convert_pad_structure in Hconv.
  apply bind_Ok in Hconv as (g & Hg & [= -> Hix]). rewrite Hix in Hg.
  assert (Hf : ∀ C (h : Z → C),
            Torch.gather1 (Torch.pointwise h t) sorted_indices
            = Ok (Torch.pointwise h out)).
  { intros C h. unfold Torch.gather1 in *. simpl.
    apply bind_Ok in Hg as (os & Hos & [= <-]).
    by rewrite gather_rows_map_cells, Hos. }
  split; apply Hf.
Qed.

Lemma rank_ids_pads_then_reals (n : nat) (reals : list Z) :
  Forall (λ x, x ≠ pad) reals →
  ∀ k : nat,
    rank_ids_from pad k (replicate n pad ++ reals)
    = replicate n 0%Z ++ (Z.of_nat <$> seq k (length reals)).
Proof.
  intros Hreals k. induction n as [|n IH]; simpl.
  - revert k. induction Hreals as [|x reals Hx _ IH]; intros k; [done|].
    simpl. rewrite decide_False by done. by rewrite IH.
  - by rewrite decide_True, IH.
Qed.

Lemma rank_ids_reals_then_pads (n : nat) (reals : list Z) :
  Forall (λ x, x ≠ pad) reals →
  ∀ k : nat,
    rank_ids_from pad k (reals ++ replicate n pad)
    = (Z.of_nat <$> seq k (length reals)) ++ replicate n 0%Z.
Proof.
  induction 1 as [|x reals Hx _ IH]; intros k; simpl.
  - induction n as [|n IH]; [done|]. simpl. by rewrite decide_True, IH.
  - rewrite decide_False by done. by rewrite IH.
Qed.

Lemma real_tokens_all_real (row : list Z) :
  Forall (λ x, x ≠ pad) (real_tokens pad row).
Proof. apply Forall_forall. by intros x [Hx _]%list_elem_of_filter. Qed.

(** The position ids of a batch, row by row, when the widths are int64
    sizes. *)
Lemma position_ids_rows (t : tensor Z) :
  wf t → size_ok (ncols t) →
  create_position_ids (create_attention_mask config t)
  = Tensor (ncols t) (map (rank_ids_from pad 0) (rows t)).
Proof.
  intros Hwf Hsize.
  rewrite create_position_ids_rows, create_attention_mask_rows. simpl.
  f_equal. rewrite map_map. apply Forall_fmap_ext_1.
  eapply Forall_impl; [exact Hwf|]. simpl. intros row Hrow.
  apply (position_row_rank_ids config row 0). simpl. by rewrite Hrow.
Qed.

(** X7. After a conversion the position ids have a closed form: in
    each row as many zeros as the row has pad tokens, on the side of the
    padding, and 0, 1, .., k-1 over its k real tokens. *)
Theorem position_ids_after_conversion (t out : tensor Z)
    (sorted_indices : tensor nat) (pad_to_left : bool) :
  convert_pad_structure config t pad_to_left = Ok (out, sorted_indices) →
  wf t → size_ok (ncols t) →
  create_position_ids (create_attention_mask config out)
  = Tensor (ncols t)
      (map (λ row,
              if pad_to_left
              then replicate (count_pad pad row) 0%Z
                     ++ (Z.of_nat <$> seq 0 (count_real pad row))
              else (Z.of_nat <$> seq 0 (count_real pad row))
                     ++ replicate (count_pad pad row) 0%Z)
         (rows t)).
Proof.
  intros Hconv Hwf Hsize.
  rewrite convert_pad_structure_eq in Hconv. injection Hconv as <- _.
  rewrite position_ids_rows; simpl; [|by unfold wf in *; simpl;
    apply Forall_fmap; eapply Forall_impl; [exact Hwf|]; simpl;
    intros row <-; apply repadded_length | done].
  f_equal. rewrite map_map. apply map_ext. intros row.
  unfold repadded, count_real. destruct pad_to_left.
  - apply rank_ids_pads_then_reals, real_tokens_all_real.
  - apply rank_ids_reals_then_pads, real_tokens_all_real.
Qed.

Lemma rank_ids_from_pads (row : list Z) :
  ∀ k,
    (filter (λ p, p.1 = pad) (zip row (rank_ids_from pad k row))).*2
    = replicate (count_pad pad row) 0%Z.
Proof.
  unfold count_pad.
  induction row as [|y row IH]; intros k; [done|].
  simpl. destruct (decide (y = pad)) as [Hy|Hy]; simpl.
  - rewrite !filter_cons_True by done. simpl. by rewrite IH.
  - rewrite !filter_cons_False by done. apply IH.
Qed.

(** X8. Position ids move with the tokens too: the position ids of the
    input, gathered along the indices of a conversion, are the position
    ids of the converted batch, so they need not be computed again. *)
Theorem position_ids_gathered (t out : tensor Z)
    (sorted_indices : tensor nat) (pad_to_left : bool) :
  convert_pad_structure config t pad_to_left = Ok (out, sorted_indices) →
  wf t → size_ok (ncols t) →
  Torch.gather1 (create_position_ids (create_attention_mask config t))
    sorted_indices
  = Ok (create_position_ids (create_attention_mask config out)).
Proof.
  intros Hconv Hwf Hsize.
  rewrite convert_pad_structure_eq in Hconv. injection Hconv as <- <-.
  rewrite (position_ids_rows t) by done.
  rewrite position_ids_rows; simpl; [|by unfold wf in *; simpl;
    apply Forall_fmap; eapply Forall_impl; [exact Hwf|]; simpl;
    intros row <-; apply repadded_length | done].
  unfold Torch.gather1. simpl.
  assert (Hrows : ∀ rs : list (list Z),
    Torch.gather_rows (map (rank_ids_from pad 0) rs)
      (map (λ row,
              Torch.argsort_row
                (map Int64.of_bool
                   (map (if pad_to_left then ne_pad config
                         else eq_pad config) row))) rs)
    = Ok (map (rank_ids_from pad 0) (map (repadded pad pad_to_left) rs))).
  { induction rs as [|row rs IH]; [done|]. simpl.
    rewrite (gather_companion_row config pad_to_left row)
      by apply rank_ids_from_length.
    simpl. rewrite IH. simpl. do 2 f_equal.
    rewrite rank_ids_from_pads, rank_ids_from_real.
    unfold repadded, count_real. destruct pad_to_left; symmetry.
    - apply rank_ids_pads_then_reals, real_tokens_all_real.
    - apply rank_ids_reals_then_pads, real_tokens_all_real. }
  by rewrite Hrows.
Qed.

End ConvertMaskPosition.

(** ** The mask counts, the position ids stay below the count *)

Section MaskCounts.

Variable config : TensorConfig.
Local Abbreviation pad := (pad_token_id config).

(** X10. The row sums of the attention mask of a rectangular batch are
    the numbers of real tokens of its rows; every cell of the mask is 0
    or 1; and the effective length computed from the mask, when the
    batch has a row, is the largest number of real tokens of a row,
    which is at most the width. *)
Theorem attention_mask_row_sums (t : tensor Z) :
  wf t → size_ok (ncols t) →
  Torch.sum_dim1 (create_attention_mask config t)
    = map (λ row, Z.of_nat (count_real pad row)) (rows t) ∧
  Forall (Forall (λ v, v = 0 ∨ v = 1)%Z)
    (rows (create_attention_mask config t)) ∧
  (rows t ≠ [] →
   Torch.max (Torch.sum_dim1 (create_attention_mask config t))
     = Ok (Z.of_nat (max_list (map (count_real pad) (rows t)))) ∧
   max_list (map (count_real pad) (rows t)) ≤ ncols t).
Proof.
  intros Hwf Hsize. split; [|split].
  - rewrite create_attention_mask_rows. unfold Torch.sum_dim1. simpl.
    rewrite map_map. apply Forall_fmap_ext_1.
    eapply Forall_impl; [exact Hwf|]. simpl. intros row Hrow.
    apply (sum_mask_from config row 0). simpl. by rewrite Hrow.
  - rewrite create_attention_mask_rows. simpl.
    apply Forall_fmap, Forall_forall. intros row _. simpl.
    apply Forall_fmap, Forall_forall. intros x _. simpl.
    case_decide; auto.
  - intros Hne. split; [by apply effective_len_max_count|].
    assert (∀ l : list nat, Forall (λ c, c ≤ ncols t) l →
              max_list l ≤ ncols t) as Hmax by (induction 1; simpl; lia).
    apply Hmax, Forall_fmap. eapply Forall_impl; [exact Hwf|].
    simpl. intros row <-. apply length_filter.
Qed.

Lemma rank_ids_from_bound (row : list Z) :
  ∀ k : nat,
    Forall (λ v, v = 0 ∨ Z.of_nat k ≤ v < Z.of_nat (k + count_real pad row))%Z
      (rank_ids_from pad k row).
Proof.
  unfold count_real, real_tokens.
  induction row as [|y row IH]; intros k; [constructor|].
  simpl. destruct (decide (y = pad)) as [Hy|Hy].
  - rewrite filter_cons_False by (intros H; by apply H).
    constructor; [by left | apply IH].
  - rewrite filter_cons_True by done. simpl.
    constructor; [right; lia|].
    eapply Forall_impl; [apply (IH (S k))|]. simpl. lia.
Qed.

(** X11. Every position id of a row lies between 0 and the number of
    real tokens of the row minus one (it is 0 in a row of padding only),
    so it is below the width of the batch. *)
Theorem position_ids_below_count (t : tensor Z) :
  wf t → size_ok (ncols t) →
  ∀ (i : nat) (row prow : list Z),
    rows t !! i = Some row →
    rows (create_position_ids (create_attention_mask config t)) !! i
      = Some prow →
    Forall (λ v, 0 ≤ v ≤ Z.of_nat (count_real pad row - 1) ∧
                 v ≤ Z.of_nat (ncols t - 1))%Z prow.
Proof.
  intros Hwf Hsize i row prow Hi Hp.
  rewrite position_ids_rows in Hp by done. simpl in Hp.
  rewrite list_lookup_fmap, Hi in Hp. injection Hp as <-.
  assert (count_real pad row ≤ ncols t) as Hle.
  { unfold wf in Hwf. rewrite Forall_lookup in Hwf.
    rewrite <- (Hwf i row Hi). apply length_filter. }
  eapply Forall_impl; [apply (rank_ids_from_bound row 0)|]. simpl. lia.
Qed.

End MaskCounts.

(** ** Concatenation: when it returns, and in steps *)

Section ConcatenateMore.

Variable config : TensorConfig.
Local Abbreviation pad := (pad_token_id config).

Lemma cat1_misaligned {A} (t : tensor A) (ts : list (tensor A)) :
  Exists (λ u, nrows u ≠ nrows t) ts → Torch.cat1 (t :: ts) = Raise RuntimeError.
Proof.
  intros Hex. unfold Torch.cat1.
  assert (forallb (λ u, nrows u =? nrows t) ts = false) as ->; [|done].
  induction Hex as [u ts Hu|u ts _ IH]; simpl.
  - by rewrite (proj2 (Nat.eqb_neq _ _) Hu).
  - by rewrite IH, andb_false_r.
Qed.

Lemma aligned_or_not {A} (t : tensor A) (ts : list (tensor A)) :
  Forall (λ u, nrows u = nrows t) ts ∨ Exists (λ u, nrows u ≠ nrows t) ts.
Proof.
  induction ts as [|u ts [IH|IH]].
  - left. constructor.
  - destruct (decide (nrows u = nrows t)); [left | right]; by constructor.
  - right. by right.
Qed.

(** The concatenation followed by the re-padding, on fragments with the
    same number of rows. *)
Lemma concatenate_with_padding_eq (t : tensor Z) (ts : list (tensor Z))
    (pad_to_left : bool) :
  Forall (λ u, nrows u = nrows t) ts →
  concatenate_with_padding config (t :: ts) pad_to_left
  = Ok (Tensor (sum_list (ncols <$> t :: ts))
          (map (repadded pad pad_to_left) (Torch.cat_rows t ts))).
Proof.
  intros Hn. unfold concatenate_with_padding.
  rewrite (cat1_aligned t ts (nrows t)) by (by constructor).
  simpl. by rewrite convert_pad_structure_eq.
Qed.

(** X12. The concatenation returns exactly when the list is not empty
    and every fragment has as many rows as the first.  An empty list
    raises (the class of that error is the one [torch.cat] chooses, which
    differs between releases, and is left open); a fragment with another
    number of rows is a RuntimeError.  When it returns, the output has
    the rows of the first fragment and the sum of the widths, whether or
    not the fragments are padded at all. *)
Theorem concatenate_with_padding_returns (tensors : list (tensor Z))
    (pad_to_left : bool) :
  (tensors = [] →
   raises (concatenate_with_padding config tensors pad_to_left)) ∧
  (∀ t ts, tensors = t :: ts → Exists (λ u, nrows u ≠ nrows t) ts →
     concatenate_with_padding config tensors pad_to_left = Raise RuntimeError) ∧
  (∀ t ts, tensors = t :: ts → Forall (λ u, nrows u = nrows t) ts →
     ∃ out, concatenate_with_padding config tensors pad_to_left = Ok out ∧
            nrows out = nrows t ∧
            ncols out = sum_list (ncols <$> tensors)) ∧
  ((∃ out, concatenate_with_padding config tensors pad_to_left = Ok out)
   ↔ ∃ t ts, tensors = t :: ts ∧ Forall (λ u, nrows u = nrows t) ts).
Proof.
  assert (Hbad : ∀ t ts, Exists (λ u, nrows u ≠ nrows t) ts →
            concatenate_with_padding config (t :: ts) pad_to_left
            = Raise RuntimeError).
  { intros t ts Hex. unfold concatenate_with_padding.
    by rewrite cat1_misaligned. }
  split; [intros ->; by eexists|].
  split; [intros t ts ->; apply Hbad|].
  split.
  { intros t ts -> Hn. rewrite concatenate_with_padding_eq by done.
    eexists. split; [done|]. split; [|done].
    unfold nrows at 1. simpl. rewrite length_map. by apply cat_rows_length. }
  split.
  - intros [out Hout]. destruct tensors as [|t ts]; [done|].
    exists t, ts. split; [done|].
    destruct (aligned_or_not t ts) as [Hn|Hex]; [done|].
    by rewrite Hbad in Hout.
  - intros (t & ts & -> & Hn). rewrite concatenate_with_padding_eq by done.
    eauto.
Qed.

Lemma repadded_app_repadded (side side' : bool) (x y : list Z) :
  repadded pad side (repadded pad side' x ++ y) = repadded pad side (x ++ y).
Proof.
  unfold repadded at 1 3.
  by rewrite !real_tokens_app, !count_pad_app, real_tokens_repadded,
    count_pad_repadded.
Qed.

Lemma zip_with_app_assoc {A} (a b c : list (list A)) :
  zip_with app a (zip_with app b c) = zip_with app (zip_with app a b) c.
Proof.
  revert b c. induction a as [|x a IH]; intros [|y b] [|z c]; try done.
  simpl. by rewrite IH, app_assoc.
Qed.

Lemma cat_rows_app {A} (ts1 : list (tensor A)) :
  ∀ (t u : tensor A) (ts2 : list (tensor A)),
    Torch.cat_rows t (ts1 ++ u :: ts2)
    = zip_with app (Torch.cat_rows t ts1) (Torch.cat_rows u ts2).
Proof.
  induction ts1 as [|v ts1 IH]; intros t u ts2; [done|].
  simpl. by rewrite IH, zip_with_app_assoc.
Qed.

Lemma repadded_zip_app (side side' : bool) (l c : list (list Z)) :
  map (repadded pad side) (zip_with app (map (repadded pad side') l) c)
  = map (repadded pad side) (zip_with app l c).
Proof.
  revert c. induction l as [|x l IH]; intros [|y c]; try done.
  simpl. by rewrite IH, repadded_app_repadded.
Qed.

(** X13. Concatenating in steps gives what concatenating at once
    gives: the fragments [t :: ts1 ++ ts2] may be joined by first
    joining [t :: ts1], padded on either side, and then joining the
    outcome with [ts2].  The two ways also fail together. *)
Theorem concatenate_with_padding_in_steps (t : tensor Z)
    (ts1 ts2 : list (tensor Z)) (pad_to_left first_to_left : bool) :
  concatenate_with_padding config (t :: ts1 ++ ts2) pad_to_left
  = (x ← concatenate_with_padding config (t :: ts1) first_to_left;
     concatenate_with_padding config (x :: ts2) pad_to_left).
Proof.
  assert (Hbad : ∀ side (u : tensor Z) us,
            Exists (λ v, nrows v ≠ nrows u) us →
            concatenate_with_padding config (u :: us) side
            = Raise RuntimeError).
  { intros side u us Hex. unfold concatenate_with_padding.
    by rewrite cat1_misaligned. }
  destruct (aligned_or_not t ts1) as [Hn1|Hex1].
  2:{ rewrite (Hbad pad_to_left) by (apply Exists_app; by left).
      by rewrite (Hbad first_to_left). }
  pose proof (concatenate_with_padding_eq t ts1 first_to_left Hn1) as Hfirst.
  remember (Tensor (sum_list (ncols <$> t :: ts1))
              (map (repadded pad first_to_left) (Torch.cat_rows t ts1)))
    as x eqn:Ex.
  rewrite Hfirst. simpl.
  assert (Hx : nrows x = nrows t).
  { rewrite Ex. unfold nrows at 1. simpl. rewrite length_map.
    by apply cat_rows_length. }
  destruct (aligned_or_not t ts2) as [Hn2|Hex2].
  2:{ rewrite (Hbad pad_to_left t (ts1 ++ ts2))
        by (apply Exists_app; by right).
      rewrite (Hbad pad_to_left x ts2); [done|].
      eapply Exists_impl; [exact Hex2|]. simpl. intros v Hv. by rewrite Hx. }
  rewrite !concatenate_with_padding_eq.
  2:{ eapply Forall_impl; [exact Hn2|]. simpl. intros v Hv. by rewrite Hx. }
  2:{ by apply Forall_app. }
  rewrite Ex. f_equal. f_equal.
  - rewrite !fmap_cons, fmap_app. cbn [sum_list_with ncols id].
    rewrite sum_list_with_app. lia.
  - destruct ts2 as [|u ts2].
    + rewrite app_nil_r. simpl. rewrite map_map. apply map_ext.
      intros row. symmetry. apply repadded_repadded.
    + rewrite cat_rows_app. simpl. symmetry. apply repadded_zip_app.
Qed.

End ConcatenateMore.

(** ** Scattering: reading the active rows back *)

Section ScatterMore.

Variable config : TensorConfig.
Local Abbreviation pad := (pad_token_id config).

(** Reading a placed list back at the true positions gives the source,
    and at the false positions what was there. *)
Lemma place_select {B} (mask : list bool) :
  ∀ dst src : list B,
    length dst = length mask →
    count_true mask ≤ length src →
    (filter (λ p, p.1 = true) (zip mask (Torch.place dst mask src))).*2
      = take (count_true mask) src ∧
    (filter (λ p, p.1 = false) (zip mask (Torch.place dst mask src))).*2
      = (filter (λ p, p.1 = false) (zip mask dst)).*2.
Proof.
  induction mask as [|b mask IH]; intros [|d dst] src Hlen Hsrc; try done.
  rewrite count_true_cons in *. simpl in Hlen.
  destruct b.
  - destruct src as [|s src]; simpl in Hsrc; [lia|].
    destruct (IH dst src) as [Ht Hf]; [lia | lia |].
    simpl.
    rewrite ?filter_cons_True, ?filter_cons_False by (simpl; congruence).
    simpl. split; [f_equal; exact Ht | exact Hf].
  - destruct (IH dst src) as [Ht Hf]; [lia | simpl in Hsrc; lia |].
    simpl.
    rewrite ?filter_cons_True, ?filter_cons_False by (simpl; congruence).
    simpl. split; [exact Ht | f_equal; exact Hf].
Qed.

Lemma select_false_replicate {B} (mask : list bool) (fill : B) :
  (filter (λ p, p.1 = false) (zip mask (replicate (length mask) fill))).*2
  = replicate (length mask - count_true mask) fill.
Proof.
  induction mask as [|b mask IH]; [done|].
  pose proof (count_true_le mask).
  rewrite count_true_cons. destruct b; simpl;
    rewrite ?filter_cons_True, ?filter_cons_False by (simpl; congruence).
  - exact IH.
  - replace (S (length mask) - count_true mask)
      with (S (length mask - count_true mask)) by lia.
    simpl. f_equal. exact IH.
Qed.

(** X14. Whenever a variant returns, reading its output back along the
    mask undoes it: the rows at the true positions are the rows of the
    active-only tensor, in order, and the rows at the false positions
    are all rows of the pad value.  For the variant with strings the
    strings at the true positions are the first strings of the list, as
    many as there are true positions, and the others are empty. *)
Theorem example_level_pad_read_back {A} (responses : tensor Z)
    (responses_str : list string) (x : tensor A) (pad_value : A)
    (active_mask : list bool) :
  size_ok (length active_mask) →
  (∀ padded_x,
     _example_level_pad_tensor x active_mask pad_value = Ok padded_x →
     (filter (λ p, p.1 = true) (zip active_mask (rows padded_x))).*2
       = rows x ∧
     (filter (λ p, p.1 = false) (zip active_mask (rows padded_x))).*2
       = replicate (length active_mask - nrows x)
           (replicate (ncols x) pad_value)) ∧
  (∀ padded_responses padded_responses_str,
     _example_level_pad config responses responses_str active_mask
       = Ok (padded_responses, padded_responses_str) →
     (filter (λ p, p.1 = true)
        (zip active_mask (rows padded_responses))).*2
       = rows responses ∧
     (filter (λ p, p.1 = true) (zip active_mask padded_responses_str)).*2
       = take (nrows responses) responses_str ∧
     (filter (λ p, p.1 = false) (zip active_mask padded_responses_str)).*2
       = replicate (length active_mask - nrows responses) ""%string).
Proof.
  intros Hsize. split.
  - intros padded_x. rewrite example_level_pad_tensor_eq by done.
    case_decide as Hc; [|done]. intros [= <-]. simpl.
    destruct (place_select active_mask
                (replicate (length active_mask)
                   (replicate (ncols x) pad_value)) (rows x))
      as [Ht Hf]; [by rewrite length_replicate | unfold nrows in Hc; lia|].
    rewrite Ht, Hf, select_false_replicate, Hc.
    split; [|done]. unfold nrows. by rewrite firstn_all.
  - intros padded_responses padded_responses_str.
    rewrite example_level_pad_eq by done.
    case_decide as Hc; [|done]. case_decide as Hs; [|done].
    intros [= <- <-]. simpl.
    destruct (place_select active_mask
                (replicate (length active_mask)
                   (replicate (ncols responses) pad)) (rows responses))
      as [Ht _]; [by rewrite length_replicate | unfold nrows in Hc; lia|].
    destruct (place_select active_mask
                (replicate (length active_mask) ""%string) responses_str)
      as [Hts Hfs]; [by rewrite length_replicate | done|].
    rewrite Ht, Hts, Hfs, select_false_replicate, Hc.
    split; [|done]. unfold nrows. by rewrite firstn_all.
Qed.





Lemma place_surplus {B} (mask : list bool) :
  ∀ dst src extra : list B,
    count_true mask ≤ length src →
    Torch.place dst mask (src ++ extra) = Torch.place dst mask src.
Proof.
  induction mask as [|b mask IH]; intros [|d dst] src extra Hsrc; try done.
  rewrite count_true_cons in Hsrc. destruct b.
  - destruct src as [|s src]; simpl in *; [lia|].
    rewrite IH; [done | lia].
  - simpl. by rewrite IH.
Qed.

(** X16. Strings beyond the number of active examples are never read:
    when the list holds at least one string per active example, any
    further strings change nothing, and no error is raised for them. *)
Theorem example_level_pad_surplus_strings (responses : tensor Z)
    (responses_str extra : list string) (active_mask : list bool) :
  size_ok (length active_mask) →
  count_true active_mask ≤ length responses_str →
  _example_level_pad config responses (responses_str ++ extra) active_mask
  = _example_level_pad config responses responses_str active_mask.
Proof.
  intros Hsize Hs. rewrite !example_level_pad_eq by done.
  case_decide; [|done]. rewrite !decide_True by (rewrite ?length_app; lia).
  by rewrite place_surplus.
Qed.

End ScatterMore.

(** ** Stacking: no padding needed, stripping, changing side *)

Section PadAndStackMore.

Variable config : TensorConfig.
Local Abbreviation pad := (pad_token_id config).

Lemma max_list_const (m : nat) (l : list nat) :
  l ≠ [] → Forall (λ c, c = m) l → max_list l = m.
Proof.
  intros Hne Hl. induction Hl as [|c l -> Hl IH]; [done|]. simpl.
  destruct l as [|c' l]; [simpl; lia|]. rewrite IH by done. lia.
Qed.

(** X17. Sequences of one common length are stacked as they are: no
    cell is added, the side plays no part, nor does the pad value as
    long as it is an int64 ([torch.full] still converts it, for rows of
    no cell), and the width is that length.  A single sequence is the
    case of one row. *)
Theorem pad_and_stack_equal_lengths (tensor_list : list (list Z)) (m : nat)
    (pad_to_left : bool) (pad_value : option Z) :
  tensor_list ≠ [] →
  Forall (λ t, length t = m) tensor_list →
  Int64.in_range (match pad_value with Some v => v | None => pad end) →
  pad_and_stack config tensor_list pad_to_left pad_value
  = Ok (Tensor m tensor_list).
Proof.
  intros Hne Hlen Hpad. rewrite pad_and_stack_eq by (by try intros v ->).
  assert (Hm : max_list (map length tensor_list) = m).
  { apply max_list_const; [by destruct tensor_list|].
    by apply Forall_fmap. }
  rewrite Hm. do 2 f_equal.
  rewrite <- (map_id tensor_list) at 2. apply Forall_fmap_ext_1.
  eapply Forall_impl; [exact Hlen|]. simpl. intros t ->.
  rewrite Nat.sub_diag. simpl. destruct pad_to_left; [done|].
  by rewrite app_nil_r.
Qed.

Lemma real_tokens_all (t : list Z) :
  Forall (λ x, x ≠ pad) t → real_tokens pad t = t ∧ count_pad pad t = 0.
Proof.
  intros Ht. split; [by apply filter_all|].
  unfold count_pad. rewrite filter_none; [done|].
  eapply Forall_impl; [exact Ht|]. simpl. auto.
Qed.

Lemma repadded_padded_sequence (side side' : bool) (k : nat) (t : list Z) :
  Forall (λ x, x ≠ pad) t →
  repadded pad side'
    (if side then replicate k pad ++ t else t ++ replicate k pad)
  = (if side' then replicate k pad ++ t else t ++ replicate k pad).
Proof.
  intros Ht. destruct (real_tokens_all t Ht) as [Hr Hc].
  unfold repadded.
  destruct side; rewrite real_tokens_app, count_pad_app,
    real_tokens_replicate, count_pad_replicate, Hr, Hc;
    rewrite ?app_nil_r, ?Nat.add_0_r; simpl; done.
Qed.


(** X19. Stacking on one side and then converting to the other gives
    what stacking on the other side gives, for the default pad value
    and sequences that hold no pad token. *)
Theorem pad_and_stack_then_convert (tensor_list : list (list Z))
    (pad_to_left convert_to_left : bool) :
  tensor_list ≠ [] →
  Forall (Forall (λ x, x ≠ pad)) tensor_list →
  (stacked ← pad_and_stack config tensor_list pad_to_left None;
   p ← convert_pad_structure config stacked convert_to_left;
   Ok p.1)
  = pad_and_stack config tensor_list convert_to_left None.
Proof.
  intros Hne Hreal. rewrite !pad_and_stack_eq by done. simpl.
  rewrite convert_pad_structure_eq. simpl. do 2 f_equal.
  rewrite map_map. apply Forall_fmap_ext_1.
  eapply Forall_impl; [exact Hreal|]. simpl. intros t Ht.
  by apply repadded_padded_sequence.
Qed.

End PadAndStackMore.

(** ** The further properties at concrete inputs *)

Lemma cut_to_effective_len_frame_witness :
  let pad := pad_token_id example_config in
  let attention_mask := Tensor 3 [[0; 1; 1]; [0; 0; 1]]%Z in
  let other := Tensor 1 [[9]; [9]]%Z in
  let tensor_dict : gmap string (tensor Z) :=
    <["attention_mask" := attention_mask]>
      (<["input_ids" := Tensor 3 [[pad; 5; 6]; [pad; pad; 7]]%Z]>
         (<["other" := other]> ∅)) in
  let result : gmap string (tensor Z) :=
    <["attention_mask" := attention_mask]>
      (<["input_ids" := Tensor 2 [[5; 6]; [pad; 7]]%Z]>
         (<["other" := other]> ∅)) in
  cut_to_effective_len tensor_dict ["input_ids"] true = Ok result ∧
  dom result = dom tensor_dict ∧
  (∀ key, key ∉ ["input_ids"] → result !! key = tensor_dict !! key) ∧
  (∀ key t, tensor_dict !! key = Some t →
     ∃ t', result !! key = Some t' ∧
           nrows t' = nrows t ∧ ncols t' ≤ ncols t ∧ (wf t → wf t')).
Proof.
  intros pad attention_mask other tensor_dict result.
  assert (Hres : cut_to_effective_len tensor_dict ["input_ids"] true
                 = Ok result) by (vm_compute; reflexivity).
  split; [exact Hres|].
  exact (cut_to_effective_len_frame tensor_dict ["input_ids"] true result
           Hres).
Defined.

Lemma cut_to_effective_len_removes_masked_columns_witness :
  let pad := pad_token_id example_config in
  let attention_mask := Tensor 3 [[0; 1; 1]; [0; 0; 1]]%Z in
  let input_ids := Tensor 3 [[pad; 5; 6]; [pad; pad; 7]]%Z in
  let tensor_dict : gmap string (tensor Z) :=
    <["attention_mask" := attention_mask]>
      (<["input_ids" := input_ids]> ∅) in
  let result : gmap string (tensor Z) :=
    <["attention_mask" := attention_mask]>
      (<["input_ids" := Tensor 2 [[5; 6]; [pad; 7]]%Z]> ∅) in
  cut_to_effective_len tensor_dict ["input_ids"] true = Ok result ∧
  tensor_dict !! "attention_mask" = Some attention_mask ∧
  wf attention_mask ∧ size_ok (ncols attention_mask) ∧
  Forall (λ mrow, ∃ k c : nat,
            mrow = replicate k 0%Z ++ replicate c 1%Z)
    (rows attention_mask) ∧
  "input_ids" ∈ ["input_ids"] ∧
  tensor_dict !! "input_ids" = Some input_ids ∧
  ncols input_ids = ncols attention_mask ∧
  ∃ (s : nat) (t' : tensor Z),
    s ≤ ncols input_ids ∧
    result !! "input_ids" = Some t' ∧
    ncols t' = ncols input_ids - s ∧
    rows t' = map (drop s) (rows input_ids) ∧
    Forall (λ mrow, Forall (λ v, v = 0%Z) (take s mrow))
      (rows attention_mask).
Proof.
  intros pad attention_mask input_ids tensor_dict result.
  assert (Hres : cut_to_effective_len tensor_dict ["input_ids"] true
                 = Ok result) by (vm_compute; reflexivity).
  assert (Hm : tensor_dict !! "attention_mask" = Some attention_mask)
    by (vm_compute; reflexivity).
  assert (Hwf : wf attention_mask) by (repeat constructor).
  assert (Hsize : size_ok (ncols attention_mask))
    by (int64_consts; simpl; lia).
  assert (Hpad : Forall (λ mrow, ∃ k c : nat,
                   mrow = if true then replicate k 0%Z ++ replicate c 1%Z
                          else replicate c 1%Z ++ replicate k 0%Z)
                   (rows attention_mask)).
  { constructor; [by exists 1, 2|]. constructor; [by exists 2, 1|].
    constructor. }
  assert (Hin : "input_ids" ∈ ["input_ids"]) by (by left).
  assert (Ht : tensor_dict !! "input_ids" = Some input_ids)
    by (vm_compute; reflexivity).
  assert (Hcols : ncols input_ids = ncols attention_mask) by reflexivity.
  split; [exact Hres|]. split; [exact Hm|]. split; [exact Hwf|].
  split; [exact Hsize|]. split; [exact Hpad|]. split; [exact Hin|].
  split; [exact Ht|]. split; [exact Hcols|].
  exact (cut_to_effective_len_removes_masked_columns tensor_dict result
           attention_mask input_ids ["input_ids"] "input_ids" true
           Hres Hm Hwf Hsize Hpad Hin Ht Hcols).
Defined.

Lemma cut_to_effective_len_full_row_witness :
  let pad := pad_token_id example_config in
  let attention_mask := Tensor 2 [[1; 1]; [0; 1]]%Z in
  let input_ids := Tensor 2 [[5; 6]; [pad; 7]]%Z in
  let tensor_dict : gmap string (tensor Z) :=
    <["attention_mask" := attention_mask]>
      (<["input_ids" := input_ids]> ∅) in
  cut_to_effective_len tensor_dict ["input_ids"] true = Ok tensor_dict ∧
  tensor_dict !! "attention_mask" = Some attention_mask ∧
  wf attention_mask ∧ size_ok (ncols attention_mask) ∧
  Forall (Forall (λ v, v = 0 ∨ v = 1)%Z) (rows attention_mask) ∧
  Exists (Forall (λ v, v = 1%Z)) (rows attention_mask) ∧
  "input_ids" ∈ ["input_ids"] ∧
  tensor_dict !! "input_ids" = Some input_ids ∧
  wf input_ids ∧
  ncols input_ids = ncols attention_mask ∧
  tensor_dict !! "input_ids" = Some input_ids.
Proof.
  intros pad attention_mask input_ids tensor_dict.
  assert (Hres : cut_to_effective_len tensor_dict ["input_ids"] true
                 = Ok tensor_dict) by (vm_compute; reflexivity).
  assert (Hm : tensor_dict !! "attention_mask" = Some attention_mask)
    by (vm_compute; reflexivity).
  assert (Hwf : wf attention_mask) by (repeat constructor).
  assert (Hsize : size_ok (ncols attention_mask))
    by (int64_consts; simpl; lia).
  assert (Hbin : Forall (Forall (λ v, v = 0 ∨ v = 1)%Z)
                   (rows attention_mask)).
  { repeat first [apply Forall_nil | apply Forall_cons; split]; auto. }
  assert (Hfull : Exists (Forall (λ v, v = 1%Z)) (rows attention_mask)).
  { left. repeat constructor. }
  assert (Hin : "input_ids" ∈ ["input_ids"]) by (by left).
  assert (Ht : tensor_dict !! "input_ids" = Some input_ids)
    by (vm_compute; reflexivity).
  assert (Hwft : wf input_ids) by (repeat constructor).
  assert (Hcols : ncols input_ids = ncols attention_mask) by reflexivity.
  split; [exact Hres|]. split; [exact Hm|]. split; [exact Hwf|].
  split; [exact Hsize|]. split; [exact Hbin|]. split; [exact Hfull|].
  split; [exact Hin|]. split; [exact Ht|]. split; [exact Hwft|].
  split; [exact Hcols|].
  exact (cut_to_effective_len_full_row tensor_dict tensor_dict
           attention_mask input_ids ["input_ids"] "input_ids" true
           Hres Hm Hwf Hsize Hbin Hfull Hin Ht Hwft Hcols).
Defined.

Lemma cut_to_effective_len_twice_witness :
  let pad := pad_token_id example_config in
  let attention_mask := Tensor 3 [[0; 1; 1]; [0; 0; 1]]%Z in
  let tensor_dict : gmap string (tensor Z) :=
    <["attention_mask" := attention_mask]>
      (<["input_ids" := Tensor 3 [[pad; 5; 6]; [pad; pad; 7]]%Z]> ∅) in
  let keys := ["input_ids"; "attention_mask"]%string in
  let result : gmap string (tensor Z) :=
    <["attention_mask" := Tensor 2 [[1; 1]; [0; 1]]%Z]>
      (<["input_ids" := Tensor 2 [[5; 6]; [pad; 7]]%Z]> ∅) in
  cut_to_effective_len tensor_dict keys true = Ok result ∧
  tensor_dict !! "attention_mask" = Some attention_mask ∧
  wf attention_mask ∧ size_ok (ncols attention_mask) ∧
  Forall (λ mrow, ∃ k c : nat,
            mrow = replicate k 0%Z ++ replicate c 1%Z)
    (rows attention_mask) ∧
  Forall (λ key, ∀ t, tensor_dict !! key = Some t →
                      ncols t = ncols attention_mask) keys ∧
  cut_to_effective_len result keys true = Ok result.
Proof.
  intros pad attention_mask tensor_dict keys result.
  assert (Hres : cut_to_effective_len tensor_dict keys true = Ok result)
    by (vm_compute; reflexivity).
  assert (Hm : tensor_dict !! "attention_mask" = Some attention_mask)
    by (vm_compute; reflexivity).
  assert (Hwf : wf attention_mask) by (repeat constructor).
  assert (Hsize : size_ok (ncols attention_mask))
    by (int64_consts; simpl; lia).
  assert (Hpad : Forall (λ mrow, ∃ k c : nat,
                   mrow = if true then replicate k 0%Z ++ replicate c 1%Z
                          else replicate c 1%Z ++ replicate k 0%Z)
                   (rows attention_mask)).
  { constructor; [by exists 1, 2|]. constructor; [by exists 2, 1|].
    constructor. }
  assert (Hcols : Forall (λ key, ∀ t, tensor_dict !! key = Some t →
                                    ncols t = ncols attention_mask) keys).
  { constructor; [|constructor; [|constructor]]; intros t Ht;
      vm_compute in Ht; by injection Ht as <-. }
  split; [exact Hres|]. split; [exact Hm|]. split; [exact Hwf|].
  split; [exact Hsize|]. split; [exact Hpad|]. split; [exact Hcols|].
  exact (cut_to_effective_len_twice tensor_dict result attention_mask keys
           true Hres Hm Hwf Hsize Hpad Hcols).
Defined.

Lemma cut_to_effective_len_keeps_real_tokens_witness :
  let pad := pad_token_id example_config in
  let input_ids := Tensor 3 [[pad; 5; 6]; [pad; pad; 7]]%Z in
  let attention_mask := create_attention_mask example_config input_ids in
  let tensor_dict : gmap string (tensor Z) :=
    <["attention_mask" := attention_mask]>
      (<["input_ids" := input_ids]> ∅) in
  tensor_dict !! "attention_mask" = Some attention_mask ∧
  rows attention_mask ≠ [] ∧
  size_ok (ncols attention_mask) ∧
  Forall (λ key, ∃ t, tensor_dict !! key = Some t ∧ wf t ∧
                   create_attention_mask example_config t = attention_mask ∧
                   Forall (padded_on pad true) (rows t)) ["input_ids"] ∧
  ∃ result : gmap string (tensor Z),
    cut_to_effective_len tensor_dict ["input_ids"] true = Ok result ∧
    ∀ (key : string) (t : tensor Z),
      key ∈ ["input_ids"] → tensor_dict !! key = Some t →
      ∃ t' : tensor Z,
        result !! key = Some t' ∧
        nrows t' = nrows t ∧
        (true = false ∨ 0 < max_list (map (count_real pad) (rows t)) →
         ncols t' = max_list (map (count_real pad) (rows t)) ∧
         rows t' = map (drop (ncols t - ncols t')) (rows t)) ∧
        ∀ (i : nat) (row : list Z),
          rows t !! i = Some row →
          ∃ row' : list Z,
            rows t' !! i = Some row' ∧
            real_tokens pad row' = real_tokens pad row ∧
            count_real pad row' = count_real pad row.
Proof.
  intros pad input_ids attention_mask tensor_dict.
  assert (Hm : tensor_dict !! "attention_mask" = Some attention_mask)
    by (vm_compute; reflexivity).
  assert (Hne : rows attention_mask ≠ []) by discriminate.
  assert (Hsize : size_ok (ncols attention_mask))
    by (int64_consts; simpl; lia).
  assert (Hkeys : Forall (λ key, ∃ t, tensor_dict !! key = Some t ∧ wf t ∧
                     create_attention_mask example_config t = attention_mask ∧
                     Forall (padded_on pad true) (rows t)) ["input_ids"]).
  { constructor; [|constructor]. exists input_ids.
    split; [vm_compute; reflexivity|]. split; [repeat constructor|].
    split; [reflexivity|]. repeat constructor. }
  split; [exact Hm|]. split; [exact Hne|]. split; [exact Hsize|].
  split; [exact Hkeys|].
  exact (cut_to_effective_len_keeps_real_tokens example_config tensor_dict
           attention_mask ["input_ids"] true Hm Hne Hsize Hkeys).
Defined.

Lemma convert_pad_structure_padded_idle_witness :
  let pad := pad_token_id example_config in
  let t := Tensor 3 [[pad; 5; 6]; [pad; pad; 7]]%Z in
  wf t ∧
  Forall (padded_on pad true) (rows t) ∧
  convert_pad_structure example_config t true
  = Ok (t, Tensor (ncols t) (replicate (nrows t) (seq 0 (ncols t)))).
Proof.
  intros pad t.
  assert (Hwf : wf t) by (repeat constructor).
  assert (Hpad : Forall (padded_on pad true) (rows t))
    by (repeat constructor).
  split; [exact Hwf|]. split; [exact Hpad|].
  exact (convert_pad_structure_padded_idle example_config t true Hwf Hpad).
Defined.

Lemma convert_pad_structure_companion_witness :
  let pad := pad_token_id example_config in
  let t := Tensor 3 [[5; pad; 6]; [pad; 7; pad]]%Z in
  let out := Tensor 3 [[pad; 5; 6]; [pad; pad; 7]]%Z in
  let sorted_indices := Tensor 3 [[1; 0; 2]; [0; 2; 1]] in
  let u := Tensor 3 [[10; 11; 12]; [13; 14; 15]]%Z in
  convert_pad_structure example_config t true = Ok (out, sorted_indices) ∧
  nrows u = nrows t ∧
  (∀ i urow row, rows u !! i = Some urow → rows t !! i = Some row →
                 length urow = length row) ∧
  ∃ u' : tensor Z,
    Torch.gather1 u sorted_indices = Ok u' ∧
    ncols u' = ncols t ∧ nrows u' = nrows t ∧
    ∀ (i : nat) (urow : list Z) (row : list Z),
      rows u !! i = Some urow → rows t !! i = Some row →
      ∃ urow' : list Z,
        rows u' !! i = Some urow' ∧
        urow' ≡ₚ urow ∧
        urow' = (filter (λ p, p.1 = pad) (zip row urow)).*2
                  ++ (filter (λ p, p.1 ≠ pad) (zip row urow)).*2.
Proof.
  intros pad t out sorted_indices u.
  assert (Hconv : convert_pad_structure example_config t true
                  = Ok (out, sorted_indices)) by (vm_compute; reflexivity).
  assert (Hn : nrows u = nrows t) by reflexivity.
  assert (Hlen : ∀ i urow row, rows u !! i = Some urow →
                   rows t !! i = Some row → length urow = length row).
  { intros [|[|i]] urow row Hu Hr; simpl in *; try done;
      by injection Hu as <-; injection Hr as <-. }
  split; [exact Hconv|]. split; [exact Hn|]. split; [exact Hlen|].
  exact (convert_pad_structure_companion example_config t out sorted_indices
           u true Hconv Hn Hlen).
Defined.

Lemma convert_pad_structure_pointwise_witness :
  let pad := pad_token_id example_config in
  let t := Tensor 3 [[5; pad; 6]; [pad; 7; pad]]%Z in
  let out := Tensor 3 [[pad; 5; 6]; [pad; pad; 7]]%Z in
  let sorted_indices := Tensor 3 [[1; 0; 2]; [0; 2; 1]] in
  convert_pad_structure example_config t true = Ok (out, sorted_indices) ∧
  Torch.gather1 (Torch.pointwise (λ x, x + 1)%Z t) sorted_indices
    = Ok (Torch.pointwise (λ x, x + 1)%Z out) ∧
  Torch.gather1 (create_attention_mask example_config t) sorted_indices
    = Ok (create_attention_mask example_config out).
Proof.
  intros pad t out sorted_indices.
  assert (Hconv : convert_pad_structure example_config t true
                  = Ok (out, sorted_indices)) by (vm_compute; reflexivity).
  split; [exact Hconv|].
  exact (convert_pad_structure_pointwise example_config (λ x, x + 1)%Z t out
           sorted_indices true Hconv).
Defined.

Lemma position_ids_after_conversion_witness :
  let pad := pad_token_id example_config in
  let t := Tensor 3 [[5; pad; 6]; [pad; 7; pad]]%Z in
  let out := Tensor 3 [[pad; 5; 6]; [pad; pad; 7]]%Z in
  let sorted_indices := Tensor 3 [[1; 0; 2]; [0; 2; 1]] in
  convert_pad_structure example_config t true = Ok (out, sorted_indices) ∧
  wf t ∧ size_ok (ncols t) ∧
  create_position_ids (create_attention_mask example_config out)
  = Tensor (ncols t)
      (map (λ row,
              replicate (count_pad pad row) 0%Z
                ++ (Z.of_nat <$> seq 0 (count_real pad row)))
         (rows t)).
Proof.
  intros pad t out sorted_indices.
  assert (Hconv : convert_pad_structure example_config t true
                  = Ok (out, sorted_indices)) by (vm_compute; reflexivity).
  assert (Hwf : wf t) by (repeat constructor).
  assert (Hsize : size_ok (ncols t)) by (int64_consts; simpl; lia).
  split; [exact Hconv|]. split; [exact Hwf|]. split; [exact Hsize|].
  exact (position_ids_after_conversion example_config t out sorted_indices
           true Hconv Hwf Hsize).
Defined.

Lemma position_ids_gathered_witness :
  let pad := pad_token_id example_config in
  let t := Tensor 3 [[5; pad; 6]; [pad; 7; pad]]%Z in
  let out := Tensor 3 [[5; 6; pad]; [7; pad; pad]]%Z in
  let sorted_indices := Tensor 3 [[0; 2; 1]; [1; 0; 2]] in
  convert_pad_structure example_config t false = Ok (out, sorted_indices) ∧
  wf t ∧ size_ok (ncols t) ∧
  Torch.gather1 (create_position_ids (create_attention_mask example_config t))
    sorted_indices
  = Ok (create_position_ids (create_attention_mask example_config out)).
Proof.
  intros pad t out sorted_indices.
  assert (Hconv : convert_pad_structure example_config t false
                  = Ok (out, sorted_indices)) by (vm_compute; reflexivity).
  assert (Hwf : wf t) by (repeat constructor).
  assert (Hsize : size_ok (ncols t)) by (int64_consts; simpl; lia).
  split; [exact Hconv|]. split; [exact Hwf|]. split; [exact Hsize|].
  exact (position_ids_gathered example_config t out sorted_indices false
           Hconv Hwf Hsize).
Defined.

Lemma attention_mask_row_sums_witness :
  let pad := pad_token_id example_config in
  let t := Tensor 3 [[5; pad; 6]; [pad; 7; pad]]%Z in
  wf t ∧ size_ok (ncols t) ∧
  Torch.sum_dim1 (create_attention_mask example_config t)
    = map (λ row, Z.of_nat (count_real pad row)) (rows t) ∧
  Forall (Forall (λ v, v = 0 ∨ v = 1)%Z)
    (rows (create_attention_mask example_config t)) ∧
  (rows t ≠ [] →
   Torch.max (Torch.sum_dim1 (create_attention_mask example_config t))
     = Ok (Z.of_nat (max_list (map (count_real pad) (rows t)))) ∧
   max_list (map (count_real pad) (rows t)) ≤ ncols t).
Proof.
  intros pad t.
  assert (Hwf : wf t) by (repeat constructor).
  assert (Hsize : size_ok (ncols t)) by (int64_consts; simpl; lia).
  split; [exact Hwf|]. split; [exact Hsize|].
  exact (attention_mask_row_sums example_config t Hwf Hsize).
Defined.

Lemma position_ids_below_count_witness :
  let pad := pad_token_id example_config in
  let t := Tensor 3 [[5; pad; 6]; [pad; 7; pad]]%Z in
  wf t ∧ size_ok (ncols t) ∧
  rows t !! 0 = Some [5; pad; 6]%Z ∧
  rows (create_position_ids (create_attention_mask example_config t)) !! 0
    = Some [0; 0; 1]%Z ∧
  Forall (λ v, 0 ≤ v ≤ Z.of_nat (count_real pad [5; pad; 6]%Z - 1) ∧
               v ≤ Z.of_nat (ncols t - 1))%Z [0; 0; 1]%Z.
Proof.
  intros pad t.
  assert (Hwf : wf t) by (repeat constructor).
  assert (Hsize : size_ok (ncols t)) by (int64_consts; simpl; lia).
  assert (Hi : rows t !! 0 = Some [5; pad; 6]%Z) by reflexivity.
  assert (Hp : rows (create_position_ids
                       (create_attention_mask example_config t)) !! 0
               = Some [0; 0; 1]%Z) by (vm_compute; reflexivity).
  split; [exact Hwf|]. split; [exact Hsize|]. split; [exact Hi|].
  split; [exact Hp|].
  exact (position_ids_below_count example_config t Hwf Hsize 0
           [5; pad; 6]%Z [0; 0; 1]%Z Hi Hp).
Defined.

Lemma example_level_pad_read_back_witness :
  let pad := pad_token_id example_config in
  let responses := Tensor 2 [[11; 12]; [21; 22]]%Z in
  let responses_str := ["x"; "y"; "z"]%string in
  let active_mask := [true; false; true] in
  size_ok (length active_mask) ∧
  (∀ padded_x,
     _example_level_pad_tensor responses active_mask 0%Z = Ok padded_x →
     (filter (λ p, p.1 = true) (zip active_mask (rows padded_x))).*2
       = rows responses ∧
     (filter (λ p, p.1 = false) (zip active_mask (rows padded_x))).*2
       = replicate (length active_mask - nrows responses)
           (replicate (ncols responses) 0%Z)) ∧
  (∀ padded_responses padded_responses_str,
     _example_level_pad example_config responses responses_str active_mask
       = Ok (padded_responses, padded_responses_str) →
     (filter (λ p, p.1 = true)
        (zip active_mask (rows padded_responses))).*2
       = rows responses ∧
     (filter (λ p, p.1 = true) (zip active_mask padded_responses_str)).*2
       = take (nrows responses) responses_str ∧
     (filter (λ p, p.1 = false) (zip active_mask padded_responses_str)).*2
       = replicate (length active_mask - nrows responses) ""%string).
Proof.
  intros pad responses responses_str active_mask.
  assert (Hsize : size_ok (length active_mask)) by (int64_consts; simpl; lia).
  split; [exact Hsize|].
  exact (example_level_pad_read_back example_config responses responses_str
           responses 0%Z active_mask Hsize).
Defined.


Lemma example_level_pad_surplus_strings_witness :
  let responses := Tensor 2 [[11; 12]; [21; 22]]%Z in
  let active_mask := [true; false; true] in
  size_ok (length active_mask) ∧
  count_true active_mask ≤ length ["x"; "y"]%string ∧
  _example_level_pad example_config responses
    (["x"; "y"]%string ++ ["z"]%string) active_mask
  = _example_level_pad example_config responses ["x"; "y"]%string active_mask.
Proof.
  intros responses active_mask.
  assert (Hsize : size_ok (length active_mask)) by (int64_consts; simpl; lia).
  assert (Hs : count_true active_mask ≤ length ["x"; "y"]%string)
    by (vm_compute; lia).
  split; [exact Hsize|]. split; [exact Hs|].
  exact (example_level_pad_surplus_strings example_config responses
           ["x"; "y"]%string ["z"]%string active_mask Hsize Hs).
Defined.

Lemma pad_and_stack_equal_lengths_witness :
  let tensor_list := [[1; 2; 3]; [4; 5; 6]]%Z in
  tensor_list ≠ [] ∧
  Forall (λ t, length t = 3) tensor_list ∧
  Int64.in_range (pad_token_id example_config) ∧
  pad_and_stack example_config tensor_list true None
  = Ok (Tensor 3 tensor_list).
Proof.
  intros tensor_list.
  assert (Hne : tensor_list ≠ []) by discriminate.
  assert (Hlen : Forall (λ t, length t = 3) tensor_list)
    by (repeat constructor).
  assert (Hpad : Int64.in_range (pad_token_id example_config))
    by (split; by vm_compute).
  split; [exact Hne|]. split; [exact Hlen|]. split; [exact Hpad|].
  exact (pad_and_stack_equal_lengths example_config tensor_list 3 true None
           Hne Hlen Hpad).
Defined.


Lemma pad_and_stack_then_convert_witness :
  let pad := pad_token_id example_config in
  let tensor_list := [[1; 2; 3]; [4; 5]]%Z in
  tensor_list ≠ [] ∧
  Forall (Forall (λ x, x ≠ pad)) tensor_list ∧
  (stacked ← pad_and_stack example_config tensor_list false None;
   p ← convert_pad_structure example_config stacked true;
   Ok p.1)
  = pad_and_stack example_config tensor_list true None.
Proof.
  intros pad tensor_list.
  assert (Hne : tensor_list ≠ []) by discriminate.
  assert (Hreal : Forall (Forall (λ x, x ≠ pad)) tensor_list).
  { repeat constructor; intros H; vm_compute in H; discriminate H. }
  split; [exact Hne|]. split; [exact Hreal|].
  exact (pad_and_stack_then_convert example_config tensor_list false true
           Hne Hreal).
Defined.
